(** * Chart.js hooks for Chartisan: a shallow embedding of [src/hooks.ts]

    The file [src/hooks.ts] declares the class [Hooks], a fluent builder
    whose methods push closures ("hooks") onto [this.hooks].  Each closure
    takes a chart configuration and returns one.  Two of them ([colors],
    [datasets]) assign to fields of the configuration they receive; the
    others go through [mergeOptions], imported from [@chartisan/chartisan].

    Because several properties of interest are about object identity
    (is the caller's object written to?  is an argument copied or
    captured?), JavaScript objects and arrays live in an explicit store
    and values refer to them by location.

    Limits of the model, all of them outside the declared TypeScript
    types of the methods:
    - numbers are integers (they are only passed around, never computed on);
    - only own properties are looked up (no prototype chain);
    - reading a named property of an array or of a string, assigning a
      named property to an array, and spreading an array or a string
      into an object literal are not modelled: the operation returns
      [None], as it does where JavaScript throws a [TypeError]. *)

From stdpp Require Import gmap strings list fin_maps.

(** ** Values and the store *)

Abbreviation loc := nat.

Inductive value :=
| VUndefined
| VNull
| VBool (b : bool)
| VNum (n : Z)
| VStr (s : string)
| VRef (l : loc).

(** A store cell is a plain object (a finite map from property names to
    values) or an array. *)
Inductive cell :=
| Obj (props : gmap string value)
| Arr (elems : list value).

Abbreviation heap := (list cell).

#[global] Instance value_eq_dec : EqDecision value.
Proof. solve_decision. Defined.

#[global] Instance cell_eq_dec : EqDecision cell.
Proof. solve_decision. Defined.

(** Evaluating an object or array literal allocates a new cell at the end
    of the store. *)
Definition alloc (c : cell) (h : heap) : heap * value :=
  (h ++ [c], VRef (length h)).

Definition obj_at (h : heap) (v : value) : option (gmap string value) :=
  match v with
  | VRef l => match h !! l with Some (Obj ps) => Some ps | _ => None end
  | _ => None
  end.

(** [Array.isArray(v)] together with the elements. *)
Definition arr_at (h : heap) (v : value) : option (list value) :=
  match v with
  | VRef l => match h !! l with Some (Arr es) => Some es | _ => None end
  | _ => None
  end.

(** JavaScript truthiness, as used by [if (...)] and [!]. *)
Definition truthy (v : value) : bool :=
  match v with
  | VUndefined | VNull => false
  | VBool b => b
  | VNum n => negb (n =? 0)%Z
  | VStr s => negb (String.eqb s "")
  | VRef _ => true
  end.

Definition js_not (v : value) : value := VBool (negb (truthy v)).

(** A default parameter [x = d]: the default is used exactly when the
    argument is [undefined]. *)
Definition dflt (arg d : value) : value :=
  match arg with VUndefined => d | _ => arg end.

(** [v.k]: [None] on [undefined] and [null] (a [TypeError]). *)
Definition get_prop (h : heap) (v : value) (k : string) : option value :=
  match v with
  | VUndefined | VNull => None
  | VBool _ | VNum _ => Some VUndefined
  | VStr _ => None
  | VRef l =>
      match h !! l with
      | Some (Obj ps) => Some (default VUndefined (ps !! k))
      | _ => None
      end
  end.

(** [v?.k] *)
Definition get_prop_opt (h : heap) (v : value) (k : string) : option value :=
  match v with
  | VUndefined | VNull => Some VUndefined
  | _ => get_prop h v k
  end.

(** [v.k = x] (module code is strict: assigning to a property of a
    primitive throws). *)
Definition set_prop (h : heap) (v : value) (k : string) (x : value) : option heap :=
  match v with
  | VRef l =>
      match h !! l with
      | Some (Obj ps) => Some (<[l := Obj (<[k := x]> ps)]> h)
      | _ => None
      end
  | _ => None
  end.

(** The own enumerable properties copied by [...v] inside an object
    literal: those of an object, none for [undefined], [null], booleans
    and numbers. *)
Definition own_props (h : heap) (v : value) : option (gmap string value) :=
  match v with
  | VRef l => match h !! l with Some (Obj ps) => Some ps | _ => None end
  | VStr _ => None
  | _ => Some ∅
  end.

(** [a % b] on array indices: [NaN] (here [None]) when [b] is [0]. *)
Definition js_rem (a b : nat) : option nat :=
  match b with 0 => None | S _ => Some (a mod b) end.

(** [es[i]]: [undefined] out of range and at [NaN]. *)
Definition elem_at (es : list value) (i : option nat) : value :=
  match i with
  | Some n => default VUndefined (es !! n)
  | None => VUndefined
  end.

(** [arr[index % arr.length]] *)
Definition cyclic_elem (h : heap) (arr : value) (index : nat) : option value :=
  es ← arr_at h arr;
  Some (elem_at es (js_rem index (length es))).

(** [Array.prototype.map] with a callback [(element, index) => ...] that
    may allocate. *)
Fixpoint map_from (f : heap → value → nat → option (heap * value))
    (h : heap) (es : list value) (i : nat) : option (heap * list value) :=
  match es with
  | [] => Some (h, [])
  | e :: es' =>
      '(h1, x) ← f h e i;
      '(h2, xs) ← map_from f h1 es' (S i);
      Some (h2, x :: xs)
  end.

Definition array_map (f : heap → value → nat → option (heap * value))
    (h : heap) (arr : value) : option (heap * value) :=
  es ← arr_at h arr;
  '(h1, xs) ← map_from f h es 0;
  Some (alloc (Arr xs) h1).

(** ** The merge engine *)

Definition is_mapping (h : heap) (v : value) : bool :=
  match obj_at h v with Some _ => true | None => false end.

(** Modelled from the spec: the loop of [mergeOptions] (section 4.2,
    "for each key present in the fragment"), whose code is not part of
    [src/hooks.ts].  [acc] starts as the base's properties; [rec] merges
    two mappings. *)
Fixpoint merge_keys (rec : heap → value → value → option (heap * value))
    (bps : gmap string value) (kvs : list (string * value))
    (h : heap) (acc : gmap string value) : option (heap * gmap string value) :=
  match kvs with
  | [] => Some (h, acc)
  | (k, fv) :: kvs' =>
      let bv := default VUndefined (bps !! k) in
      if is_mapping h bv && is_mapping h fv
      then '(h1, r) ← rec h bv fv;
           merge_keys rec bps kvs' h1 (<[k := r]> acc)
      else merge_keys rec bps kvs' h (<[k := fv]> acc)
  end.

(** Modelled from the spec: [mergeOptions] is imported from
    [@chartisan/chartisan] and its body is not part of [src/hooks.ts].
    Following section 4.2: the result is a new mapping that starts from
    the base's keys; for each key of the fragment, if the base value and
    the fragment value are both mappings they are merged recursively,
    otherwise the fragment's value replaces the base's value.  Neither
    argument is written to.  The recursion follows references, so it is
    bounded by [fuel]; [None] also stands for arguments that are not
    both mappings, which section 4.2 does not describe. *)
Fixpoint mergeOptions (fuel : nat) (h : heap) (base frag : value)
    : option (heap * value) :=
  match fuel with
  | 0 => None
  | S n =>
      bps ← obj_at h base;
      fps ← obj_at h frag;
      '(h', rps) ← merge_keys (mergeOptions n) bps (map_to_list fps) h bps;
      Some (alloc (Obj rps) h')
  end.

(** The mappings nested below [v], reached through the store, are at
    most [d] deep and none of the references on the way dangles.  Arrays
    are not entered: the merge never looks inside one. *)
Fixpoint depth_le (d : nat) (h : heap) (v : value) : bool :=
  match v with
  | VRef l =>
      match h !! l with
      | Some (Obj ps) =>
          match d with
          | 0 => false
          | S d' => forallb (λ kv, depth_le d' h kv.2) (map_to_list ps)
          end
      | Some (Arr _) => true
      | None => false
      end
  | _ => true
  end.

(** A scalar or an array: what the merge engine replaces as a whole. *)
Definition atomic (h : heap) (v : value) : Prop :=
  match v with
  | VRef _ => is_Some (arr_at h v)
  | _ => True
  end.

(** [r] carries the fragment [fv]: where the fragment is a scalar or an
    array, [r] is that very value; where it is a mapping, [r] is a
    mapping that carries each of the fragment's values at the same key
    (down to depth [d]). *)
Fixpoint covers (d : nat) (h : heap) (fv r : value) : Prop :=
  match obj_at h fv with
  | None => r = fv
  | Some fps =>
      match d with
      | 0 => True
      | S d' =>
          ∃ rps, obj_at h r = Some rps ∧
            ∀ k x, fps !! k = Some x → ∃ y, rps !! k = Some y ∧ covers d' h x y
      end
  end.

(** ** Hooks: the closures pushed by the methods of [Hooks]

    One constructor per [function(chart: CC): CC { ... }] in the source,
    carrying the variables the closure captures. *)
Inductive hook :=
| colors_fn (colors : value)
| responsive_fn (maintainAspectRatio : value)
| legend_fn (legend : value)
| displayAxes_fn (display strict : value)
| padding_fn (padding : value)
| datasets_fn (t general : value)
| title_fn (title : value)
| beginAtZero_fn (beginAtZero : value).

#[global] Instance hook_eq_dec : EqDecision hook.
Proof. solve_decision. Defined.

(** [chart.data?.datasets] *)
Definition datasets_of (h : heap) (chart : value) : option value :=
  data ← get_prop h chart "data";
  get_prop_opt h data "datasets".

(** A callback of [map] whose body is an object literal: [lit] evaluates
    the literal's properties, the literal itself allocates. *)
Definition alloc_cb (lit : heap → value → nat → option (gmap string value))
    (h : heap) (e : value) (index : nat) : option (heap * value) :=
  ps ← lit h e index;
  Some (alloc (Obj ps) h).

(** The literal in the callback of [colors]:
    [{...dataset, borderColor: c, backgroundColor: c}] with
    [c = colors[index % colors.length]]. *)
Definition colors_lit (colors : value) (h : heap) (dataset : value) (index : nat)
    : option (gmap string value) :=
  ps ← own_props h dataset;
  c ← cyclic_elem h colors index;
  Some (<["backgroundColor" := c]> (<["borderColor" := c]> ps)).

(** The literal in the callback of [datasets]:
    [{...dataset, ...t[index % t.length]}]; the later spread wins. *)
Definition datasets_lit (t : value) (h : heap) (dataset : value) (index : nat)
    : option (gmap string value) :=
  ps ← own_props h dataset;
  frag ← cyclic_elem h t index;
  fs ← own_props h frag;
  Some (fs ∪ ps).

(** The statement shared by [colors] and [datasets]:
    [if (chart.data?.datasets)
       chart.data.datasets = chart.data.datasets.map(cb)]
    followed by [return chart]. *)
Definition map_datasets (cb : heap → value → nat → option (heap * value))
    (h : heap) (chart : value) : option (heap * value) :=
  ds ← datasets_of h chart;
  if truthy ds then
    data ← get_prop h chart "data";
    '(h1, arr) ← array_map cb h ds;
    h2 ← set_prop h1 data "datasets" arr;
    Some (h2, chart)
  else Some (h, chart).

(** The fragment of [displayAxes] when [strict] is falsy:
    [{options: {scales: {xAxes: [{display}], yAxes: [{display}]}}}]. *)
Definition axes_fragment (display : value) (h : heap) : heap * value :=
  let '(h, x) := alloc (Obj {["display" := display]}) h in
  let '(h, xAxes) := alloc (Arr [x]) h in
  let '(h, y) := alloc (Obj {["display" := display]}) h in
  let '(h, yAxes) := alloc (Arr [y]) h in
  let '(h, scales) := alloc (Obj {["xAxes" := xAxes; "yAxes" := yAxes]}) h in
  let '(h, options) := alloc (Obj {["scales" := scales]}) h in
  alloc (Obj {["options" := options]}) h.

(** Running one hook on [chart].  [fuel] bounds [mergeOptions]. *)
Definition run_hook (fuel : nat) (hk : hook) (h : heap) (chart : value)
    : option (heap * value) :=
  match hk with
  | colors_fn colors =>
      map_datasets (alloc_cb (colors_lit colors)) h chart
  | responsive_fn maintainAspectRatio =>
      let '(h, options) :=
        alloc (Obj {["maintainAspectRatio" := maintainAspectRatio]}) h in
      let '(h, frag) := alloc (Obj {["options" := options]}) h in
      mergeOptions fuel h chart frag
  | legend_fn legend =>
      let '(h, options) := alloc (Obj {["legend" := legend]}) h in
      let '(h, frag) := alloc (Obj {["options" := options]}) h in
      mergeOptions fuel h chart frag
  | displayAxes_fn display strict =>
      if truthy strict then
        let '(h, scale) := alloc (Obj {["display" := display]}) h in
        let '(h, options) := alloc (Obj {["scale" := scale]}) h in
        let '(h, frag) := alloc (Obj {["options" := options]}) h in
        mergeOptions fuel h chart frag
      else
        let '(h, frag) := axes_fragment display h in
        mergeOptions fuel h chart frag
  | padding_fn padding =>
      let '(h, layout) := alloc (Obj {["padding" := padding]}) h in
      let '(h, options) := alloc (Obj {["layout" := layout]}) h in
      let '(h, frag) := alloc (Obj {["options" := options]}) h in
      mergeOptions fuel h chart frag
  | datasets_fn t general =>
      h0 ← set_prop h chart "type" general;
      map_datasets (alloc_cb (datasets_lit t)) h0 chart
  | title_fn title =>
      let '(h, options) := alloc (Obj {["title" := title]}) h in
      let '(h, frag) := alloc (Obj {["options" := options]}) h in
      mergeOptions fuel h chart frag
  | beginAtZero_fn beginAtZero =>
      let '(h, ticks) := alloc (Obj {["beginAtZero" := beginAtZero]}) h in
      let '(h, y) := alloc (Obj {["ticks" := ticks]}) h in
      let '(h, yAxes) := alloc (Arr [y]) h in
      let '(h, scales) := alloc (Obj {["yAxes" := yAxes]}) h in
      let '(h, options) := alloc (Obj {["scales" := scales]}) h in
      let '(h, frag) := alloc (Obj {["options" := options]}) h in
      mergeOptions fuel h chart frag
  end.

(** Modelled from the spec: applying a chain is done by the caller of
    [Hooks], in [@chartisan/chartisan].  Following section 4.3: start
    from the base and replace the running configuration by each hook's
    output, in registration order. *)
Fixpoint apply_hooks (fuel : nat) (hooks : list hook) (h : heap) (chart : value)
    : option (heap * value) :=
  match hooks with
  | [] => Some (h, chart)
  | hk :: hooks' =>
      '(h1, chart1) ← run_hook fuel hk h chart;
      apply_hooks fuel hooks' h1 chart1
  end.

(** ** The registration methods of [Hooks]

    The state is the store together with [this.hooks], the array
    inherited from the base class; [this.hooks.push(f)] appends. *)
Definition state := (heap * list hook)%type.

(** The callback of [types.map] in [datasets]:
    [e => (typeof e === 'string' ? { type: e } : e)]. *)
Definition type_cb (h : heap) (e : value) (index : nat) : option (heap * value) :=
  match e with
  | VStr _ => Some (alloc (Obj {["type" := e]}) h)
  | _ => Some (h, e)
  end.

Section Hooks.

(** The default palette exported by [@chartisan/chartisan]. *)
Variable colorPalette : value.

Definition colors (colors : value) (st : state) : state :=
  let colors := dflt colors colorPalette in
  (st.1, st.2 ++ [colors_fn colors]).

Definition responsive (maintainAspectRatio : value) (st : state) : state :=
  let maintainAspectRatio := dflt maintainAspectRatio (VBool true) in
  (st.1, st.2 ++ [responsive_fn maintainAspectRatio]).

Definition legend (legend : value) (st : state) : state :=
  let '(h, hooks) := st in
  let '(h, legend) :=
    match legend with
    | VUndefined => alloc (Obj ∅) h
    | _ => (h, legend)
    end in
  let '(h, legend) :=
    match legend with
    | VBool _ => alloc (Obj {["display" := legend]}) h
    | _ => (h, legend)
    end in
  (h, hooks ++ [legend_fn legend]).

Definition displayAxes (display strict : value) (st : state) : state :=
  let display := dflt display (VBool true) in
  let strict := dflt strict (VBool false) in
  (st.1, st.2 ++ [displayAxes_fn display strict]).

Definition minimalist (value : value) (st : state) : state :=
  let value := dflt value (VBool true) in
  let '(h, hooks) := st in
  let '(h, arg) := alloc (Obj {["display" := js_not value]}) h in
  displayAxes (js_not value) VUndefined (legend arg (h, hooks)).

Definition padding (padding : value) (st : state) : state :=
  let padding := dflt padding (VNum 5) in
  (st.1, st.2 ++ [padding_fn padding]).

Definition datasets (types general : value) (st : state) : option state :=
  let general := dflt general (VStr "bar") in
  let '(h, hooks) := st in
  '(h, t) ←
    match arr_at h types with
    | Some _ => array_map type_cb h types
    | None =>
        let '(h, e) := alloc (Obj {["type" := types]}) h in
        Some (alloc (Arr [e]) h)
    end;
  Some (h, hooks ++ [datasets_fn t general]).

Definition title (title : value) (st : state) : option state :=
  let '(h, hooks) := st in
  let '(h, title) :=
    match title with
    | VUndefined => alloc (Obj ∅) h
    | _ => (h, title)
    end in
  '(h, title) ←
    match title with
    | VStr _ => Some (alloc (Obj {["text" := title; "display" := VBool true]}) h)
    | _ =>
        ps ← own_props h title;
        Some (alloc (Obj (ps ∪ {["display" := VBool true]})) h)
    end;
  Some (h, hooks ++ [title_fn title]).

Definition beginAtZero (beginAtZero : value) (st : state) : state :=
  let beginAtZero := dflt beginAtZero (VBool true) in
  (st.1, st.2 ++ [beginAtZero_fn beginAtZero]).

(** One call of a registration method, with its arguments. *)
Inductive call :=
| call_colors (colors : value)
| call_responsive (maintainAspectRatio : value)
| call_legend (legend : value)
| call_displayAxes (display strict : value)
| call_minimalist (value : value)
| call_padding (padding : value)
| call_datasets (types general : value)
| call_title (title : value)
| call_beginAtZero (beginAtZero : value).

Definition register (c : call) (st : state) : option state :=
  match c with
  | call_colors v => Some (colors v st)
  | call_responsive v => Some (responsive v st)
  | call_legend v => Some (legend v st)
  | call_displayAxes d s => Some (displayAxes d s st)
  | call_minimalist v => Some (minimalist v st)
  | call_padding v => Some (padding v st)
  | call_datasets t g => datasets t g st
  | call_title v => title v st
  | call_beginAtZero v => Some (beginAtZero v st)
  end.

End Hooks.

(** ** Reading a configuration back *)

(** The properties of [chart.data.datasets[i]]. *)
Definition dataset_at (h : heap) (chart : value) (i : nat)
    : option (gmap string value) :=
  dsv ← datasets_of h chart;
  ds ← arr_at h dsv;
  d ← ds !! i;
  obj_at h d.

(** [chart.data.datasets.length] *)
Definition datasets_length (h : heap) (chart : value) : option nat :=
  dsv ← datasets_of h chart;
  ds ← arr_at h dsv;
  Some (length ds).

(** The dataset sequence is absent: [chart.data?.datasets] is [undefined]. *)
Definition datasets_absent (h : heap) (chart : value) : Prop :=
  datasets_of h chart = Some VUndefined.

(** ** Vocabulary of the statements *)

(** The store after [chart.data.datasets = chart.data.datasets.map(cb)]:
    one new object per dataset, then the new array, and the data block's
    [datasets] property pointing at it. *)
Definition rebuilt (h : heap) (ld : loc) (dps : gmap string value)
    (pss : list (gmap string value)) : heap :=
  <[ld := Obj (<["datasets" := VRef (length h + length pss)]> dps)]>
    (h ++ (Obj <$> pss) ++ [Arr (VRef <$> seq (length h) (length pss))]).

(** The store after [chart.type = general]. *)
Definition retyped (h : heap) (lc : loc) (cps : gmap string value)
    (general : value) : heap :=
  <[lc := Obj (<["type" := general]> cps)]> h.

(** The properties of an object literal do not change when the store grows. *)
Definition lit_mono (lit : heap → value → nat → option (gmap string value)) : Prop :=
  ∀ h h' e i ps, h `prefix_of` h' → lit h e i = Some ps → lit h' e i = Some ps.

(** What [datasets] makes of its first argument: in the store [h1] after
    the call, [ts] is the list of fragments obtained from [types] as it
    was in the store [h] before the call. *)
Definition normalized (h h1 : heap) (types : value) (ts : list value) : Prop :=
  match arr_at h types with
  | Some tys =>
      length ts = length tys ∧
      ∀ j e, tys !! j = Some e →
        match e with
        | VStr _ =>
            ∃ f, ts !! j = Some f ∧ obj_at h f = None ∧
                 obj_at h1 f = Some {["type" := e]}
        | _ => ts !! j = Some e
        end
  | None =>
      ∃ f, ts = [f] ∧ obj_at h f = None ∧ obj_at h1 f = Some {["type" := types]}
  end.

(** A merge function that only allocates. *)
Definition rec_grows (rec : heap → value → value → option (heap * value)) : Prop :=
  ∀ h b f h' r, rec h b f = Some (h', r) → h `prefix_of` h'.

(** How one key of the fragment was treated, between the stores [h]
    and [h']. *)
Definition key_outcome (rec : heap → value → value → option (heap * value))
    (h h' : heap) (bv fv rv : value) : Prop :=
  ∃ hk, h `prefix_of` hk ∧ hk `prefix_of` h' ∧
    if is_mapping hk bv && is_mapping hk fv
    then ∃ hk', rec hk bv fv = Some (hk', rv) ∧ hk' `prefix_of` h'
    else rv = fv.

(** The cells allocated by [axes_fragment] in a store of length [n]. *)
Definition axes_cells (display : value) (n : nat) : list cell :=
  [ Obj {["display" := display]};
    Arr [VRef n];
    Obj {["display" := display]};
    Arr [VRef (n + 2)];
    Obj {["xAxes" := VRef (n + 1); "yAxes" := VRef (n + 3)]};
    Obj {["scales" := VRef (n + 4)]};
    Obj {["options" := VRef (n + 5)]} ].

(** [r.options.scales.xAxes] and [r.options.scales.yAxes] are both a
    one-element array holding [{display}]. *)
Definition axes_display (h : heap) (r display : value) : Prop :=
  ∃ options scales xAxes yAxes x y,
    get_prop h r "options" = Some options ∧
    get_prop h options "scales" = Some scales ∧
    get_prop h scales "xAxes" = Some xAxes ∧
    get_prop h scales "yAxes" = Some yAxes ∧
    arr_at h xAxes = Some [x] ∧ obj_at h x = Some {["display" := display]} ∧
    arr_at h yAxes = Some [y] ∧ obj_at h y = Some {["display" := display]}.

(** A location that the store does not hold yet: what an object or array
    literal evaluated later refers to. *)
Definition fresh (h : heap) (v : value) : Prop :=
  ∃ l, v = VRef l ∧ length h ≤ l.

(** The effect of [chart.data.datasets = chart.data.datasets.map(cb)]
    between the stores [h] and [h']: the data block's property
    [datasets] now refers to a new array, as long as the old one, of new
    objects; every other property of the data block and every other
    cell of [h] is as it was. *)
Definition datasets_reassigned (h h' : heap) (chart : value) : Prop :=
  ∃ ld dps dsv ds dsv' ds',
    get_prop h chart "data" = Some (VRef ld) ∧
    h !! ld = Some (Obj dps) ∧
    dps !! "datasets" = Some dsv ∧
    arr_at h dsv = Some ds ∧
    h' !! ld = Some (Obj (<["datasets" := dsv']> dps)) ∧
    (∀ l, l < length h → l ≠ ld → h' !! l = h !! l) ∧
    fresh h dsv' ∧
    arr_at h' dsv' = Some ds' ∧
    length ds' = length ds ∧
    Forall (λ d', fresh h d' ∧ is_Some (obj_at h' d')) ds'.

(** The hooks whose body is a call of [mergeOptions]. *)
Definition merge_hook (hk : hook) : bool :=
  match hk with
  | colors_fn _ | datasets_fn _ _ => false
  | _ => true
  end.

(** The mappings nested in the value a merge-based hook captured are at
    most [d] deep ([depth_le]). *)
Definition captured_depth_le (d : nat) (h : heap) (hk : hook) : bool :=
  match hk with
  | responsive_fn v | legend_fn v | padding_fn v | title_fn v
  | beginAtZero_fn v => depth_le d h v
  | displayAxes_fn display _ => depth_le d h display
  | colors_fn _ | datasets_fn _ _ => true
  end.

(** The object literal of the callback of [colors], given the dataset's
    properties: [{...dataset, borderColor: c, backgroundColor: c}]. *)
Definition colored (c : value) (ps : gmap string value) : gmap string value :=
  <["backgroundColor" := c]> (<["borderColor" := c]> ps).

(** ** Sample stores *)

(** A configuration [{type: 'pie', data: {datasets: [d0, ..., d4]}}] at
    location 0, a list of types at 8 and a palette at 9. *)
Definition ex_store : heap :=
  [ Obj {["type" := VStr "pie"; "data" := VRef 1]};
    Obj {["datasets" := VRef 2]};
    Arr [VRef 3; VRef 4; VRef 5; VRef 6; VRef 7];
    Obj {["label" := VStr "a"]};
    Obj {["label" := VStr "b"; "type" := VStr "radar"]};
    Obj {["label" := VStr "c"]};
    Obj {["label" := VStr "d"]};
    Obj {["label" := VStr "e"]};
    Arr [VStr "line"; VStr "bar"];
    Arr [VStr "red"; VStr "green"; VStr "blue"] ].

(** [ex_store] after [datasets(['line', 'bar'])]. *)
Definition ex_registered : heap :=
  ex_store ++
  [ Obj {["type" := VStr "line"]};
    Obj {["type" := VStr "bar"]};
    Arr [VRef 10; VRef 11] ].

(** A configuration without a data block. *)
Definition ex_no_data : heap := [ Obj {["type" := VStr "pie"]} ].

(** A legend options object at 0 and a configuration at 1. *)
Definition ex_legend : heap :=
  [ Obj {["display" := VBool true]};
    Obj {["type" := VStr "bar"]} ].

(** A style fragment at 0, the list holding it at 1, and a configuration
    with one dataset at 2. *)
Definition ex_fragment : heap :=
  [ Obj {["type" := VStr "line"]};
    Arr [VRef 0];
    Obj {["data" := VRef 3]};
    Obj {["datasets" := VRef 4]};
    Arr [VRef 5];
    Obj {["label" := VStr "a"]} ].

(** A title options object. *)
Definition ex_title : heap :=
  [ Obj {["text" := VStr "Revenue"; "display" := VBool false]} ].

(** A base with a nested mapping and an array, and a fragment. *)
Definition ex_merge : heap :=
  [ Obj {["a" := VNum 1; "o" := VRef 2; "arr" := VRef 5]};
    Obj {["o" := VRef 3; "arr" := VRef 4]};
    Obj {["x" := VNum 1; "y" := VNum 2]};
    Obj {["y" := VNum 3]};
    Arr [VNum 7];
    Arr [VNum 8; VNum 9] ].

(** The [display] flag that the chain [hooks] leaves at [options.legend]
    of the configuration at location 1. *)
Definition legend_display (hooks : list hook) (h : heap) : option value :=
  '(h', r) ← apply_hooks 2 hooks h (VRef 1);
  options ← get_prop h' r "options";
  legend ← get_prop h' options "legend";
  get_prop h' legend "display".

(** The [type] that the last hook of [hooks] leaves on dataset 0 of the
    configuration at location 2. *)
Definition dataset0_type (hooks : list hook) (h : heap) : option value :=
  hk ← last hooks;
  '(h', r) ← run_hook 0 hk h (VRef 2);
  ps ← dataset_at h' r 0;
  ps !! "type".

(** The [type] of every dataset of [chart], in order. *)
Definition dataset_types (h : heap) (chart : value) : option (list (option value)) :=
  n ← datasets_length h chart;
  Some ((λ i, ps ← dataset_at h chart i; ps !! "type") <$> seq 0 n).

(** A configuration whose dataset sequence is the empty array. *)
Definition ex_empty : heap :=
  [ Obj {["type" := VStr "pie"; "data" := VRef 1]};
    Obj {["datasets" := VRef 2]};
    Arr [] ].

(** [ex_store] followed by an empty list at location 10. *)
Definition ex_empty_list : heap := ex_store ++ [ Arr [] ].

(** * Properties *)

(** Discharges a [Forall] over a literal list whose elements are objects
    of the store. *)
Ltac spreadable :=
  repeat (apply Forall_cons; split;
          [first [by eexists | split; [done | by eexists]]|]);
  apply Forall_nil; exact I.

(** ** The store only grows under allocation *)

Section store.
Implicit Types (h : heap) (v : value) (c : cell).

Lemma alloc_fst c h : (alloc c h).1 = h ++ [c].
Proof. reflexivity. Qed.

Lemma alloc_prefix c h : h `prefix_of` (alloc c h).1.
Proof. by apply prefix_app_r. Qed.

Lemma lookup_alloc c h : (h ++ [c]) !! length h = Some c.
Proof. by rewrite list_lookup_middle. Qed.

Lemma lookup_extend h (cs : list cell) (i : nat) :
  (h ++ cs) !! (length h + i) = cs !! i.
Proof. rewrite lookup_app_r by lia. f_equal. lia. Qed.

Lemma obj_at_Some h v ps :
  obj_at h v = Some ps ↔ ∃ l, v = VRef l ∧ h !! l = Some (Obj ps).
Proof.
  split.
  - destruct v as [| | | | |l]; simpl; try discriminate.
    destruct (h !! l) as [[ps'|]|] eqn:E; intros [= <-]; eauto.
  - intros (l & -> & E). simpl. by rewrite E.
Qed.

Lemma arr_at_Some h v es :
  arr_at h v = Some es ↔ ∃ l, v = VRef l ∧ h !! l = Some (Arr es).
Proof.
  split.
  - destruct v as [| | | | |l]; simpl; try discriminate.
    destruct (h !! l) as [[|es']|] eqn:E; intros [= <-]; eauto.
  - intros (l & -> & E). simpl. by rewrite E.
Qed.

Lemma obj_at_mono h h' v ps :
  h `prefix_of` h' → obj_at h v = Some ps → obj_at h' v = Some ps.
Proof.
  intros Hp (l & -> & E)%obj_at_Some. apply obj_at_Some.
  eauto using prefix_lookup_Some.
Qed.

Lemma arr_at_mono h h' v es :
  h `prefix_of` h' → arr_at h v = Some es → arr_at h' v = Some es.
Proof.
  intros Hp (l & -> & E)%arr_at_Some. apply arr_at_Some.
  eauto using prefix_lookup_Some.
Qed.

Lemma own_props_mono h h' v ps :
  h `prefix_of` h' → own_props h v = Some ps → own_props h' v = Some ps.
Proof.
  intros Hp. destruct v as [| | | | |l]; simpl; try done.
  destruct (h !! l) as [[ps'|]|] eqn:E; try done.
  intros [= <-]. by rewrite (prefix_lookup_Some _ _ _ _ E Hp).
Qed.

Lemma cyclic_elem_mono h h' arr i x :
  h `prefix_of` h' → cyclic_elem h arr i = Some x → cyclic_elem h' arr i = Some x.
Proof.
  unfold cyclic_elem. intros Hp.
  destruct (arr_at h arr) as [es|] eqn:E; [|done].
  by rewrite (arr_at_mono _ _ _ _ Hp E).
Qed.

Lemma get_prop_mono h h' v k x :
  h `prefix_of` h' → get_prop h v k = Some x → get_prop h' v k = Some x.
Proof.
  intros Hp. destruct v as [| | | | |l]; simpl; try done.
  destruct (h !! l) as [[ps'|]|] eqn:E; try done.
  by rewrite (prefix_lookup_Some _ _ _ _ E Hp).
Qed.

Lemma obj_at_fresh h l : length h ≤ l → obj_at h (VRef l) = None.
Proof. intros Hl. simpl. by rewrite lookup_ge_None_2. Qed.

Lemma colors_lit_mono colors h h' e i ps :
  h `prefix_of` h' → colors_lit colors h e i = Some ps →
  colors_lit colors h' e i = Some ps.
Proof.
  unfold colors_lit. intros Hp.
  destruct (own_props h e) as [qs|] eqn:E1; [|done]. simpl.
  destruct (cyclic_elem h colors i) as [c0|] eqn:E2; [|done]. simpl.
  intros <-.
  by rewrite (own_props_mono _ _ _ _ Hp E1), (cyclic_elem_mono _ _ _ _ _ Hp E2).
Qed.

Lemma datasets_lit_mono t h h' e i ps :
  h `prefix_of` h' → datasets_lit t h e i = Some ps →
  datasets_lit t h' e i = Some ps.
Proof.
  unfold datasets_lit. intros Hp.
  destruct (own_props h e) as [qs|] eqn:E1; [|done]. simpl.
  destruct (cyclic_elem h t i) as [f|] eqn:E2; [|done]. simpl.
  destruct (own_props h f) as [fs|] eqn:E3; [|done]. simpl.
  intros <-.
  rewrite (own_props_mono _ _ _ _ Hp E1), (cyclic_elem_mono _ _ _ _ _ Hp E2).
  simpl. by rewrite (own_props_mono _ _ _ _ Hp E3).
Qed.

End store.

(** ** [map] with an allocating callback *)

Lemma alloc_cb_Some lit (h : heap) e i ps :
  lit h e i = Some ps →
  alloc_cb lit h e i = Some (h ++ [Obj ps], VRef (length h)).
Proof. unfold alloc_cb. by intros ->. Qed.

Lemma map_from_alloc lit (h0 : heap) (es : list value) :
  lit_mono lit →
  ∀ (h : heap) (i0 : nat),
    h0 `prefix_of` h →
    (∀ j e, es !! j = Some e → is_Some (lit h0 e (i0 + j))) →
    ∃ pss : list (gmap string value),
      length pss = length es ∧
      map_from (alloc_cb lit) h es i0
        = Some (h ++ (Obj <$> pss), VRef <$> seq (length h) (length es)) ∧
      ∀ j e, es !! j = Some e →
        ∃ ps, pss !! j = Some ps ∧ lit h0 e (i0 + j) = Some ps.
Proof.
  intros Hmono. induction es as [|e es IH]; intros h i0 Hp Hdef.
  - exists []. split; [done|]. split; [by rewrite app_nil_r|]. intros j e [=].
  - destruct (Hdef 0 e eq_refl) as [ps Hps].
    rewrite Nat.add_0_r in Hps.
    destruct (IH (h ++ [Obj ps]) (S i0)) as (pss & Hlen & Hrun & Hpss).
    { etrans; [exact Hp|]. by apply prefix_app_r. }
    { intros j e' Hj. specialize (Hdef (S j) e' Hj).
      by rewrite Nat.add_succ_r in Hdef. }
    exists (ps :: pss). split; [simpl; by rewrite Hlen|]. split.
    + simpl. rewrite (alloc_cb_Some _ _ _ _ _ (Hmono _ _ _ _ _ Hp Hps)). simpl.
      rewrite Hrun. simpl. rewrite length_app. simpl.
      rewrite <- app_assoc. simpl. by rewrite Nat.add_1_r.
    + intros [|j] e' Hj.
      * injection Hj as <-. exists ps. by rewrite Nat.add_0_r.
      * destruct (Hpss j e' Hj) as (ps' & ? & ?). exists ps'.
        by rewrite Nat.add_succ_r.
Qed.

(** ** Rebuilding the dataset sequence *)

Lemma datasets_of_arr (h : heap) chart dsv ds :
  datasets_of h chart = Some dsv → arr_at h dsv = Some ds →
  ∃ ld dps,
    get_prop h chart "data" = Some (VRef ld) ∧
    h !! ld = Some (Obj dps) ∧ dps !! "datasets" = Some dsv.
Proof.
  unfold datasets_of. intros Hd Ha.
  destruct (get_prop h chart "data") as [data|] eqn:Edata; [|done].
  simpl in Hd.
  destruct data as [| |b|n|s|ld]; simpl in Hd; simplify_eq; try done.
  destruct (h !! ld) as [[dps|]|] eqn:Eld; simplify_eq.
  exists ld, dps. split_and!; [done..|].
  destruct (dps !! "datasets") as [x|] eqn:Ex; simpl in *; [done|].
  discriminate.
Qed.

Lemma map_datasets_run lit (h : heap) chart dsv ds :
  lit_mono lit →
  datasets_of h chart = Some dsv → arr_at h dsv = Some ds →
  (∀ j e, ds !! j = Some e → is_Some (lit h e j)) →
  ∃ ld dps pss,
    get_prop h chart "data" = Some (VRef ld) ∧
    h !! ld = Some (Obj dps) ∧
    length pss = length ds ∧
    (∀ j e, ds !! j = Some e → ∃ ps, pss !! j = Some ps ∧ lit h e j = Some ps) ∧
    map_datasets (alloc_cb lit) h chart = Some (rebuilt h ld dps pss, chart).
Proof.
  intros Hmono Hd Ha Hdef.
  destruct (datasets_of_arr _ _ _ _ Hd Ha) as (ld & dps & Hdata & Hld & Hds).
  destruct (map_from_alloc lit h ds Hmono h 0) as (pss & Hlen & Hrun & Hpss);
    [done|done|].
  exists ld, dps, pss. split_and!; [done..|].
  unfold map_datasets. rewrite Hd. simpl.
  apply arr_at_Some in Ha as (la & -> & Hla). simpl.
  rewrite Hdata. simpl. unfold array_map. simpl. rewrite Hla. simpl.
  rewrite Hrun. simpl.
  assert (Hlt : ld < length h) by (by eapply lookup_lt_Some).
  rewrite !lookup_app_l by (rewrite ?length_app; lia).
  rewrite Hld. simpl. unfold rebuilt.
  rewrite length_app, length_fmap, Hlen, <- app_assoc. done.
Qed.

Lemma rebuilt_frame (h : heap) ld dps pss l c :
  h !! l = Some c → l ≠ ld → rebuilt h ld dps pss !! l = Some c.
Proof.
  intros Hl Hne. unfold rebuilt.
  rewrite list_lookup_insert_ne by done.
  by rewrite lookup_app_l by (by eapply lookup_lt_Some).
Qed.

Lemma rebuilt_data (h : heap) ld dps pss :
  h !! ld = Some (Obj dps) →
  rebuilt h ld dps pss !! ld
    = Some (Obj (<["datasets" := VRef (length h + length pss)]> dps)).
Proof.
  intros Hld. unfold rebuilt. apply list_lookup_insert_eq.
  rewrite length_app. apply lookup_lt_Some in Hld. lia.
Qed.

Lemma rebuilt_new (h : heap) ld dps pss j :
  h !! ld = Some (Obj dps) →
  obj_at (rebuilt h ld dps pss) (VRef (length h + j)) = pss !! j.
Proof.
  intros Hld. apply lookup_lt_Some in Hld. unfold rebuilt. simpl.
  rewrite list_lookup_insert_ne by lia.
  rewrite lookup_extend.
  destruct (decide (j < length pss)) as [Hj|Hj].
  - rewrite lookup_app_l by (by rewrite length_fmap).
    rewrite list_lookup_fmap.
    by destruct (pss !! j).
  - rewrite (lookup_ge_None_2 pss) by lia.
    destruct (decide (j = length pss)) as [->|].
    + rewrite <- (length_fmap Obj) at 1. by rewrite lookup_alloc.
    + rewrite lookup_ge_None_2; [done|].
      rewrite length_app, length_fmap. simpl. lia.
Qed.

Lemma rebuilt_array (h : heap) ld dps pss :
  h !! ld = Some (Obj dps) →
  arr_at (rebuilt h ld dps pss) (VRef (length h + length pss))
    = Some (VRef <$> seq (length h) (length pss)).
Proof.
  intros Hld. apply lookup_lt_Some in Hld. unfold rebuilt. simpl.
  rewrite list_lookup_insert_ne by lia.
  rewrite lookup_extend.
  rewrite <- (length_fmap Obj) at 1. by rewrite lookup_alloc.
Qed.

Lemma rebuilt_get_prop (h : heap) chart ld dps pss k :
  h !! ld = Some (Obj dps) → k ≠ "datasets" →
  is_Some (get_prop h chart k) →
  get_prop (rebuilt h ld dps pss) chart k = get_prop h chart k.
Proof.
  intros Hld Hk [x Hx].
  destruct chart as [| | | | |lc]; try done.
  simpl in *. destruct (decide (lc = ld)) as [->|Hne].
  - rewrite rebuilt_data, Hld by done. by rewrite lookup_insert_ne.
  - destruct (h !! lc) as [c|] eqn:Elc; [|done].
    by rewrite (rebuilt_frame _ _ _ _ _ _ Elc Hne).
Qed.

Lemma rebuilt_datasets_of (h : heap) chart ld dps pss :
  get_prop h chart "data" = Some (VRef ld) → h !! ld = Some (Obj dps) →
  datasets_of (rebuilt h ld dps pss) chart
    = Some (VRef (length h + length pss)).
Proof.
  intros Hdata Hld. unfold datasets_of.
  rewrite rebuilt_get_prop, Hdata by (done || by rewrite Hdata). simpl.
  rewrite rebuilt_data by done. by rewrite lookup_insert_eq.
Qed.

Lemma rebuilt_dataset_at (h : heap) chart ld dps pss j :
  get_prop h chart "data" = Some (VRef ld) → h !! ld = Some (Obj dps) →
  dataset_at (rebuilt h ld dps pss) chart j = pss !! j.
Proof.
  intros Hdata Hld. unfold dataset_at.
  rewrite (rebuilt_datasets_of _ _ _ _ _ Hdata Hld). cbn [mbind option_bind].
  rewrite rebuilt_array by done. cbn [mbind option_bind].
  rewrite list_lookup_fmap.
  destruct (decide (j < length pss)) as [Hj|Hj].
  - rewrite lookup_seq_lt by done. cbn [fmap option_fmap option_map mbind option_bind].
    by apply rebuilt_new.
  - rewrite lookup_seq_ge by lia. simpl. by rewrite lookup_ge_None_2 by lia.
Qed.

Lemma rebuilt_datasets_length (h : heap) chart ld dps pss :
  get_prop h chart "data" = Some (VRef ld) → h !! ld = Some (Obj dps) →
  datasets_length (rebuilt h ld dps pss) chart = Some (length pss).
Proof.
  intros Hdata Hld. unfold datasets_length.
  rewrite (rebuilt_datasets_of _ _ _ _ _ Hdata Hld). cbn [mbind option_bind].
  rewrite rebuilt_array by done. cbn [mbind option_bind].
  by rewrite length_fmap, length_seq.
Qed.

(** ** The [colors] hook *)

Lemma elem_at_cycle (es : list value) (i : nat) :
  0 < length es →
  ∃ c, es !! (i mod length es) = Some c ∧ elem_at es (js_rem i (length es)) = c.
Proof.
  intros Hk.
  destruct (lookup_lt_is_Some_2 es (i mod length es)) as [c Hc].
  { apply Nat.mod_upper_bound. lia. }
  exists c. split; [done|].
  unfold js_rem. destruct (length es) eqn:E; [lia|].
  unfold elem_at. by rewrite Hc.
Qed.

Lemma colors_lit_Some colors (h : heap) es d i ps :
  arr_at h colors = Some es → own_props h d = Some ps →
  colors_lit colors h d i =
    Some (<["backgroundColor" := elem_at es (js_rem i (length es))]>
            (<["borderColor" := elem_at es (js_rem i (length es))]> ps)).
Proof. unfold colors_lit, cyclic_elem. by intros -> ->. Qed.

Lemma colors_hook_run colors (h : heap) chart dsv ds es fuel :
  arr_at h colors = Some es →
  datasets_of h chart = Some dsv → arr_at h dsv = Some ds →
  Forall (λ d, is_Some (own_props h d)) ds →
  ∃ ld dps pss,
    get_prop h chart "data" = Some (VRef ld) ∧
    h !! ld = Some (Obj dps) ∧
    length pss = length ds ∧
    run_hook fuel (colors_fn colors) h chart = Some (rebuilt h ld dps pss, chart) ∧
    ∀ j d, ds !! j = Some d →
      ∃ ps, own_props h d = Some ps ∧
        pss !! j =
          Some (<["backgroundColor" := elem_at es (js_rem j (length es))]>
                  (<["borderColor" := elem_at es (js_rem j (length es))]> ps)).
Proof.
  intros Hpal Hd Ha Hobj.
  destruct (map_datasets_run (colors_lit colors) h chart dsv ds)
    as (ld & dps & pss & Hdata & Hld & Hlen & Hpss & Hrun); try done.
  { intros ?????. by apply colors_lit_mono. }
  { intros j d Hj.
    destruct (proj1 (Forall_lookup _ _) Hobj j d Hj) as [ps Hps].
    rewrite (colors_lit_Some _ _ _ _ _ _ Hpal Hps). eauto. }
  exists ld, dps, pss. split_and!; [done..|].
  intros j d Hj.
  destruct (proj1 (Forall_lookup _ _) Hobj j d Hj) as [ps Hps].
  destruct (Hpss j d Hj) as (ps' & Hj' & Hlit).
  rewrite (colors_lit_Some _ _ _ _ _ _ Hpal Hps) in Hlit.
  exists ps. split; [done|]. by rewrite Hj', Hlit.
Qed.

(** C1.  On a configuration with [n] datasets, the hook registered by
    [colors] gives dataset [i], for every [i < n], the border colour and
    the fill colour [palette[i % k]], where [k] is the palette's length;
    the palette is the argument of [colors] or, without one, the default
    palette.  For [k = 0] JavaScript's [palette[i % 0]] is [undefined],
    which is what [elem_at] on [js_rem] returns. *)
Theorem colors_cycles_palette (colorPalette override : value) (st : state)
    (h : heap) (chart dsv : value) (ds es : list value) (fuel : nat) :
  let palette := dflt override colorPalette in
  arr_at h palette = Some es →
  datasets_of h chart = Some dsv →
  arr_at h dsv = Some ds →
  Forall (λ d, is_Some (own_props h d)) ds →
  colors colorPalette override st = (st.1, st.2 ++ [colors_fn palette]) ∧
  colors colorPalette VUndefined st = (st.1, st.2 ++ [colors_fn colorPalette]) ∧
  ∃ h',
    run_hook fuel (colors_fn palette) h chart = Some (h', chart) ∧
    ∀ i, i < length ds →
      ∃ ps,
        dataset_at h' chart i = Some ps ∧
        ps !! "borderColor" = Some (elem_at es (js_rem i (length es))) ∧
        ps !! "backgroundColor" = Some (elem_at es (js_rem i (length es))) ∧
        (0 < length es →
         ∃ c, es !! (i mod length es) = Some c ∧
              ps !! "borderColor" = Some c ∧ ps !! "backgroundColor" = Some c).
Proof.
  intros palette Hpal Hd Ha Hobj. split; [done|]. split; [done|].
  destruct (colors_hook_run palette h chart dsv ds es fuel Hpal Hd Ha Hobj)
    as (ld & dps & pss & Hdata & Hld & Hlen & Hrun & Hpss).
  exists (rebuilt h ld dps pss). split; [done|].
  intros i Hi.
  destruct (lookup_lt_is_Some_2 ds i Hi) as [d Hdi].
  destruct (Hpss i d Hdi) as (ps & _ & Hnew).
  eexists. rewrite (rebuilt_dataset_at _ _ _ _ _ _ Hdata Hld).
  split; [exact Hnew|].
  rewrite lookup_insert_ne, !lookup_insert_eq by done.
  split_and!; [done..|].
  intros Hk. destruct (elem_at_cycle es i Hk) as (c & Hc & ->). eauto.
Qed.

(** C10.  The hook registered by [colors] returns a dataset sequence of
    the same length; each new entry has the old entry's properties plus
    [borderColor] and [backgroundColor], and agrees with the old entry on
    every other property. *)
Theorem colors_keeps_other_fields (colors : value) (h : heap)
    (chart dsv : value) (ds es : list value) (fuel : nat) :
  arr_at h colors = Some es →
  datasets_of h chart = Some dsv →
  arr_at h dsv = Some ds →
  Forall (λ d, is_Some (own_props h d)) ds →
  ∃ h',
    run_hook fuel (colors_fn colors) h chart = Some (h', chart) ∧
    datasets_length h' chart = Some (length ds) ∧
    ∀ i d, ds !! i = Some d →
      ∃ ps ps',
        own_props h d = Some ps ∧
        dataset_at h' chart i = Some ps' ∧
        dom ps' = dom ps ∪ {["borderColor"; "backgroundColor"]} ∧
        ∀ k, k ≠ "borderColor" → k ≠ "backgroundColor" → ps' !! k = ps !! k.
Proof.
  intros Hpal Hd Ha Hobj.
  destruct (colors_hook_run colors h chart dsv ds es fuel Hpal Hd Ha Hobj)
    as (ld & dps & pss & Hdata & Hld & Hlen & Hrun & Hpss).
  exists (rebuilt h ld dps pss). split; [done|]. split.
  { by rewrite (rebuilt_datasets_length _ _ _ _ _ Hdata Hld), Hlen. }
  intros i d Hdi.
  destruct (Hpss i d Hdi) as (ps & Hps & Hnew).
  exists ps. eexists. split; [done|].
  rewrite (rebuilt_dataset_at _ _ _ _ _ _ Hdata Hld).
  split; [exact Hnew|]. split.
  - rewrite !dom_insert_L. apply set_eq. intros k.
    rewrite !elem_of_union, !elem_of_singleton. tauto.
  - intros k Hk1 Hk2. by rewrite !lookup_insert_ne.
Qed.

(** ** The [datasets] hook *)

Section retyped.
Context (h : heap) (lc : loc) (cps : gmap string value) (general : value).
Hypothesis Hlc : h !! lc = Some (Obj cps).

Lemma set_prop_type :
  set_prop h (VRef lc) "type" general = Some (retyped h lc cps general).
Proof using Hlc. simpl. by rewrite Hlc. Qed.

Lemma retyped_chart :
  retyped h lc cps general !! lc = Some (Obj (<["type" := general]> cps)).
Proof using Hlc.
  apply list_lookup_insert_eq. by eapply lookup_lt_Some.
Qed.

Lemma retyped_frame l : l ≠ lc → retyped h lc cps general !! l = h !! l.
Proof. intros Hne. unfold retyped. by rewrite list_lookup_insert_ne. Qed.

Lemma retyped_arr_at v : arr_at (retyped h lc cps general) v = arr_at h v.
Proof using Hlc.
  destruct v as [| | | | |l]; try done. simpl.
  destruct (decide (l = lc)) as [->|Hne].
  - by rewrite retyped_chart, Hlc.
  - by rewrite retyped_frame.
Qed.

Lemma retyped_own_props v :
  v ≠ VRef lc → own_props (retyped h lc cps general) v = own_props h v.
Proof.
  intros Hne. destruct v as [| | | | |l]; try done. simpl.
  rewrite retyped_frame; [done|]. congruence.
Qed.

Lemma retyped_get_prop v k :
  k ≠ "type" → get_prop (retyped h lc cps general) v k = get_prop h v k.
Proof using Hlc.
  intros Hk. destruct v as [| | | | |l]; try done. simpl.
  destruct (decide (l = lc)) as [->|Hne].
  - rewrite retyped_chart, Hlc. by rewrite lookup_insert_ne.
  - by rewrite retyped_frame.
Qed.

Lemma retyped_datasets_of chart :
  datasets_of (retyped h lc cps general) chart = datasets_of h chart.
Proof using Hlc.
  unfold datasets_of. rewrite retyped_get_prop by done.
  destruct (get_prop h chart "data") as [data|]; [|done]. simpl.
  destruct data as [| | | | |l]; try done. by apply (retyped_get_prop (VRef l)).
Qed.

Lemma retyped_cyclic_elem t i :
  cyclic_elem (retyped h lc cps general) t i = cyclic_elem h t i.
Proof using Hlc. unfold cyclic_elem. by rewrite retyped_arr_at. Qed.

Lemma retyped_type :
  get_prop (retyped h lc cps general) (VRef lc) "type" = Some general.
Proof using Hlc. simpl. by rewrite retyped_chart, lookup_insert_eq. Qed.

End retyped.

Lemma get_prop_ref_Some (h : heap) chart k l :
  get_prop h chart k = Some (VRef l) →
  ∃ lc cps, chart = VRef lc ∧ h !! lc = Some (Obj cps).
Proof.
  destruct chart as [| | | | |lc]; try done. simpl.
  destruct (h !! lc) as [[cps|]|] eqn:E; try done. eauto.
Qed.

Lemma datasets_lit_Some t (h : heap) ts d i ps fs :
  arr_at h t = Some ts → own_props h d = Some ps →
  own_props h (elem_at ts (js_rem i (length ts))) = Some fs →
  datasets_lit t h d i = Some (fs ∪ ps).
Proof.
  unfold datasets_lit, cyclic_elem. intros -> -> Hfs. simpl. by rewrite Hfs.
Qed.

(** The entry picked by [t[index % t.length]] is an element of [t], or
    [undefined] when [t] is empty. *)
Lemma elem_at_cycle_cases (ts : list value) (i : nat) :
  (ts = [] ∧ elem_at ts (js_rem i (length ts)) = VUndefined) ∨
  (0 < length ts ∧ ts !! (i mod length ts) = Some (elem_at ts (js_rem i (length ts)))).
Proof.
  destruct ts as [|t0 ts']; [by left|]. right.
  split; [simpl; lia|].
  destruct (elem_at_cycle (t0 :: ts') i) as (c & Hc & ->); [simpl; lia|done].
Qed.

Lemma datasets_hook_run t general (h : heap) chart dsv ds ts fuel :
  datasets_of h chart = Some dsv → arr_at h dsv = Some ds →
  arr_at h t = Some ts →
  Forall (λ d, d ≠ chart ∧ is_Some (own_props h d)) ds →
  Forall (λ f, f ≠ chart ∧ is_Some (own_props h f)) ts →
  ∃ lc cps ld dps pss,
    chart = VRef lc ∧ h !! lc = Some (Obj cps) ∧
    get_prop (retyped h lc cps general) chart "data" = Some (VRef ld) ∧
    retyped h lc cps general !! ld = Some (Obj dps) ∧
    length pss = length ds ∧
    run_hook fuel (datasets_fn t general) h chart
      = Some (rebuilt (retyped h lc cps general) ld dps pss, chart) ∧
    ∀ j d, ds !! j = Some d →
      ∃ ps fs, own_props h d = Some ps ∧
        own_props h (elem_at ts (js_rem j (length ts))) = Some fs ∧
        pss !! j = Some (fs ∪ ps).
Proof.
  intros Hd Ha Ht Hobj Hfrag.
  destruct (datasets_of_arr _ _ _ _ Hd Ha) as (ld0 & dps0 & Hdata0 & _ & _).
  destruct (get_prop_ref_Some _ _ _ _ Hdata0) as (lc & cps & -> & Hlc).
  set (h0 := retyped h lc cps general).
  assert (Hfs : ∀ j, ∃ fs,
    elem_at ts (js_rem j (length ts)) ≠ VRef lc ∧
    own_props h (elem_at ts (js_rem j (length ts))) = Some fs).
  { intros j. destruct (elem_at_cycle_cases ts j) as [[_ ->]|[_ Hin]].
    - by exists ∅.
    - destruct (proj1 (Forall_lookup _ _) Hfrag _ _ Hin) as [Hne [fs Hfs]]. eauto. }
  assert (Hlit : ∀ j d, ds !! j = Some d →
    ∃ ps fs, own_props h d = Some ps ∧
      own_props h (elem_at ts (js_rem j (length ts))) = Some fs ∧
      datasets_lit t h0 d j = Some (fs ∪ ps)).
  { intros j d Hj.
    destruct (proj1 (Forall_lookup _ _) Hobj j d Hj) as [Hne [ps Hps]].
    destruct (Hfs j) as (fs & Hne' & Hfsj).
    exists ps, fs. split_and!; [done..|].
    apply (datasets_lit_Some _ _ ts).
    - unfold h0. by rewrite (retyped_arr_at _ _ _ _ Hlc).
    - unfold h0. by rewrite retyped_own_props.
    - unfold h0. by rewrite retyped_own_props. }
  destruct (map_datasets_run (datasets_lit t) h0 (VRef lc) dsv ds)
    as (ld & dps & pss & Hdata & Hld & Hlen & Hpss & Hrun).
  { intros ?????. by apply datasets_lit_mono. }
  { unfold h0. by rewrite (retyped_datasets_of _ _ _ _ Hlc). }
  { unfold h0. by rewrite (retyped_arr_at _ _ _ _ Hlc). }
  { intros j d Hj. destruct (Hlit j d Hj) as (ps & fs & _ & _ & ->). eauto. }
  exists lc, cps, ld, dps, pss. split_and!; [done..| |].
  - cbn [run_hook]. rewrite (set_prop_type _ _ _ _ Hlc). exact Hrun.
  - intros j d Hj. destruct (Hlit j d Hj) as (ps & fs & Hps & Hfsj & Hl).
    destruct (Hpss j d Hj) as (ps' & Hj' & Hl'). rewrite Hl in Hl'.
    exists ps, fs. split_and!; [done..|]. by rewrite Hj', Hl'.
Qed.

Lemma map_from_type_cb (h0 : heap) (es : list value) :
  ∀ (h : heap) (i0 : nat),
    h0 `prefix_of` h →
    ∃ h' ts,
      map_from type_cb h es i0 = Some (h', ts) ∧
      h `prefix_of` h' ∧
      length ts = length es ∧
      ∀ j e, es !! j = Some e →
        match e with
        | VStr _ =>
            ∃ f, ts !! j = Some f ∧ obj_at h0 f = None ∧
                 obj_at h' f = Some {["type" := e]}
        | _ => ts !! j = Some e
        end.
Proof.
  induction es as [|e es IH]; intros h i0 Hp.
  - exists h, []. split_and!; [done..|]. intros j e [=].
  - assert (∃ h1 x, type_cb h e i0 = Some (h1, x) ∧ h `prefix_of` h1 ∧
      match e with
      | VStr _ => obj_at h0 x = None ∧ obj_at h1 x = Some {["type" := e]}
      | _ => x = e
      end) as (h1 & x & Hcb & Hp1 & Hx).
    { destruct e; try (eexists _, _; split_and!; [reflexivity|done..]).
      eexists _, _. split; [reflexivity|]. split; [by apply prefix_app_r|].
      split.
      - apply obj_at_fresh. by apply prefix_length.
      - simpl. by rewrite lookup_alloc. }
    destruct (IH h1 (S i0)) as (h' & ts & Hrun & Hp' & Hlen & Hts).
    { by etrans. }
    exists h', (x :: ts). split_and!.
    + simpl. rewrite Hcb. simpl. by rewrite Hrun.
    + by etrans.
    + simpl. by rewrite Hlen.
    + intros [|j] e' Hj.
      * injection Hj as <-. destruct e; try (by subst).
        destruct Hx as [Hx0 Hx1]. exists x. split_and!; [done..|].
        by eapply obj_at_mono.
      * by apply Hts.
Qed.

Lemma datasets_registers (types general : value) (st : state) :
  ∃ h1 t ts,
    datasets types general st
      = Some (h1, st.2 ++ [datasets_fn t (dflt general (VStr "bar"))]) ∧
    st.1 `prefix_of` h1 ∧
    arr_at st.1 t = None ∧
    arr_at h1 t = Some ts ∧
    normalized st.1 h1 types ts.
Proof.
  destruct st as [h hooks]. unfold datasets, normalized. simpl.
  destruct (arr_at h types) as [tys|] eqn:Ety.
  - unfold array_map. rewrite Ety. simpl.
    destruct (map_from_type_cb h tys h 0) as (h' & ts & Hrun & Hp & Hlen & Hts);
      [done|].
    rewrite Hrun. simpl.
    exists (h' ++ [Arr ts]), (VRef (length h')), ts. split_and!; try done.
    + etrans; [exact Hp|]. by apply prefix_app_r.
    + simpl. rewrite lookup_ge_None_2; [done|]. by apply prefix_length.
    + simpl. by rewrite lookup_alloc.
    + intros j e Hj. specialize (Hts j e Hj). destruct e; try done.
      destruct Hts as (f & ? & ? & ?). exists f. split_and!; [done..|].
      eapply obj_at_mono; [|done]. by apply prefix_app_r.
  - simpl.
    exists ((h ++ [Obj {["type" := types]}]) ++ [Arr [VRef (length h)]]),
      (VRef (length (h ++ [Obj {["type" := types]}]))), [VRef (length h)].
    split_and!; try done.
    + etrans; by apply prefix_app_r.
    + simpl. rewrite lookup_ge_None_2; [done|]. rewrite length_app. lia.
    + simpl. by rewrite lookup_alloc.
    + exists (VRef (length h)). split_and!; [done| |].
      * by apply obj_at_fresh.
      * simpl. rewrite lookup_app_l by (rewrite length_app; simpl; lia).
        by rewrite lookup_alloc.
Qed.

(** C5.  [datasets(types, general)] registers a hook that captures the
    normalised list of fragments and the general type, ['bar'] by
    default.  Applied to a configuration with [n] datasets, the hook sets
    the top-level type to the general type and replaces dataset [i], for
    every [i < n], by the union of the fragment at [i % length] and the
    dataset's own properties, the fragment winning where both define a
    property.  Datasets and fragments are objects other than the
    configuration itself (whose [type] the hook has just assigned). *)
Theorem datasets_cycles_types (types general t : value) (st : state)
    (h : heap) (chart dsv : value) (ds ts : list value) (fuel : nat) :
  let g := dflt general (VStr "bar") in
  datasets_of h chart = Some dsv →
  arr_at h dsv = Some ds →
  arr_at h t = Some ts →
  Forall (λ d, d ≠ chart ∧ is_Some (own_props h d)) ds →
  Forall (λ f, f ≠ chart ∧ is_Some (own_props h f)) ts →
  (∃ h1 t1 ts1,
     datasets types general st = Some (h1, st.2 ++ [datasets_fn t1 g]) ∧
     arr_at h1 t1 = Some ts1 ∧ normalized st.1 h1 types ts1) ∧
  ∃ h',
    run_hook fuel (datasets_fn t g) h chart = Some (h', chart) ∧
    get_prop h' chart "type" = Some g ∧
    datasets_length h' chart = Some (length ds) ∧
    ∀ i d, ds !! i = Some d →
      ∃ ps fs new,
        own_props h d = Some ps ∧
        own_props h (elem_at ts (js_rem i (length ts))) = Some fs ∧
        (0 < length ts →
         ts !! (i mod length ts) = Some (elem_at ts (js_rem i (length ts)))) ∧
        dataset_at h' chart i = Some new ∧
        new = fs ∪ ps ∧
        ∀ k, new !! k = match fs !! k with Some x => Some x | None => ps !! k end.
Proof.
  intros g Hd Ha Ht Hobj Hfrag. split.
  { destruct (datasets_registers types general st)
      as (h1 & t1 & ts1 & ? & ? & ? & ? & ?). by exists h1, t1, ts1. }
  destruct (datasets_hook_run t g h chart dsv ds ts fuel Hd Ha Ht Hobj Hfrag)
    as (lc & cps & ld & dps & pss & -> & Hlc & Hdata & Hld & Hlen & Hrun & Hpss).
  eexists. split; [exact Hrun|]. split_and!.
  - rewrite rebuilt_get_prop; try done.
    + by apply retyped_type.
    + rewrite retyped_type by done. eauto.
  - by rewrite (rebuilt_datasets_length _ _ _ _ _ Hdata Hld), Hlen.
  - intros i d Hi. destruct (Hpss i d Hi) as (ps & fs & Hps & Hfs & Hnew).
    exists ps, fs, (fs ∪ ps). split_and!; try done.
    + intros Hk. destruct (elem_at_cycle_cases ts i) as [[-> _]|[_ ?]]; [|done].
      simpl in Hk. lia.
    + by rewrite (rebuilt_dataset_at _ _ _ _ _ _ Hdata Hld).
    + intros k. rewrite lookup_union. by destruct (fs !! k), (ps !! k).
Qed.

(** ** An absent dataset sequence *)

Lemma map_datasets_absent cb (h : heap) chart :
  datasets_absent h chart → map_datasets cb h chart = Some (h, chart).
Proof. unfold datasets_absent, map_datasets. by intros ->. Qed.

(** C4, as the code has it.  When the dataset sequence is absent, the
    hook of [colors] returns the configuration it was given and leaves
    the store as it was.  The hook of [datasets] also returns the same
    object without an error, but it has assigned the general type to the
    object's [type] property; nothing else is written. *)
Theorem absent_datasets_only_type_written (colors t general : value)
    (h : heap) (chart : value) (cps : gmap string value) (fuel : nat) :
  obj_at h chart = Some cps →
  datasets_absent h chart →
  run_hook fuel (colors_fn colors) h chart = Some (h, chart) ∧
  ∃ h',
    run_hook fuel (datasets_fn t general) h chart = Some (h', chart) ∧
    obj_at h' chart = Some (<["type" := general]> cps) ∧
    length h' = length h ∧
    ∀ l, VRef l ≠ chart → h' !! l = h !! l.
Proof.
  intros (lc & -> & Hlc)%obj_at_Some Habs. split.
  { by apply map_datasets_absent. }
  exists (retyped h lc cps general). split_and!.
  - cbn [run_hook]. rewrite (set_prop_type _ _ _ _ Hlc). cbn [mbind option_bind].
    apply map_datasets_absent. unfold datasets_absent.
    by rewrite (retyped_datasets_of _ _ _ _ Hlc).
  - simpl. by rewrite (retyped_chart _ _ _ _ Hlc).
  - apply length_insert.
  - intros l Hne. apply retyped_frame. congruence.
Qed.

(** ** [title] and [minimalist] *)

(** C6.  [title] normalises its argument when it is called: a string
    [s] becomes a new object [{text: s, display: true}]; an options
    object becomes a new object with the same properties and [display]
    set to [true] unless the object has a [display] of its own, which is
    kept. *)
Theorem title_normalizes (v : value) (ps : gmap string value) (s : string)
    (st : state) :
  obj_at st.1 v = Some ps →
  title (VStr s) st =
    Some (st.1 ++ [Obj {["text" := VStr s; "display" := VBool true]}],
          st.2 ++ [title_fn (VRef (length st.1))]) ∧
  ∃ new,
    title v st =
      Some (st.1 ++ [Obj new], st.2 ++ [title_fn (VRef (length st.1))]) ∧
    new !! "display" = Some (default (VBool true) (ps !! "display")) ∧
    ∀ k, k ≠ "display" → new !! k = ps !! k.
Proof.
  destruct st as [h hooks]. simpl.
  intros (l & -> & Hl)%obj_at_Some. split; [done|].
  exists (ps ∪ {["display" := VBool true]}). split_and!.
  - unfold title. simpl. by rewrite Hl.
  - rewrite lookup_union, lookup_singleton_eq. by destruct (ps !! "display").
  - intros k Hk. rewrite lookup_union, lookup_singleton_ne by done.
    by destruct (ps !! k).
Qed.

(** C7.  [minimalist(value)] leaves the builder in the state reached by
    evaluating [{display: !value}], passing it to [legend], and then
    calling [displayAxes(!value)]: the two hooks are appended, in that
    order, at the position of the call, so applying either chain gives
    the same result. *)
Theorem minimalist_is_legend_then_axes (b : bool) (st : state)
    (fuel : nat) (h : heap) (chart : value) :
  let arg := alloc (Obj {["display" := VBool (negb b)]}) st.1 in
  let st' := displayAxes (VBool (negb b)) VUndefined (legend arg.2 (arg.1, st.2)) in
  minimalist (VBool b) st = st' ∧
  (minimalist (VBool b) st).2 =
    st.2 ++ [legend_fn arg.2; displayAxes_fn (VBool (negb b)) (VBool false)] ∧
  apply_hooks fuel (minimalist (VBool b) st).2 h chart =
    apply_hooks fuel st'.2 h chart.
Proof.
  destruct st as [h0 hooks]. simpl. split_and!; try done.
  unfold minimalist, displayAxes. simpl. by rewrite <- app_assoc.
Qed.

(** ** The merge engine *)

Lemma is_mapping_mono (h h' : heap) v :
  h `prefix_of` h' → is_mapping h v = true → is_mapping h' v = true.
Proof.
  unfold is_mapping. intros Hp.
  destruct (obj_at h v) as [ps|] eqn:E; [|done].
  by rewrite (obj_at_mono _ _ _ _ Hp E).
Qed.

Lemma is_mapping_true (h : heap) v :
  is_mapping h v = true ↔ ∃ ps, obj_at h v = Some ps.
Proof.
  unfold is_mapping. destruct (obj_at h v); split; eauto; try done.
  by intros [? ?].
Qed.

Lemma merge_keys_prefix rec bps kvs :
  rec_grows rec →
  ∀ (h : heap) acc h' rps,
    merge_keys rec bps kvs h acc = Some (h', rps) → h `prefix_of` h'.
Proof.
  intros Hrec. induction kvs as [|[k fv] kvs IH]; intros h acc h' rps; simpl.
  - by intros [= <- _].
  - destruct (is_mapping h _ && is_mapping h fv).
    + destruct (rec h _ fv) as [[h1 r]|] eqn:E; [|done]. simpl.
      intros Hk. etrans; [by eapply Hrec|]. by eapply IH.
    + apply IH.
Qed.

Lemma mergeOptions_prefix fuel : rec_grows (mergeOptions fuel).
Proof.
  induction fuel as [|n IH]; intros h b f h' r; simpl; [done|].
  destruct (obj_at h b) as [bps|]; [|done]. simpl.
  destruct (obj_at h f) as [fps|]; [|done]. simpl.
  destruct (merge_keys _ _ _ _ _) as [[h1 rps]|] eqn:E; [|done]. simpl.
  intros [= <- _]. etrans; [by eapply merge_keys_prefix|].
  by apply prefix_app_r.
Qed.

(** The result of a merge is a newly allocated mapping. *)
Lemma mergeOptions_result fuel (h : heap) b f h' r :
  mergeOptions fuel h b f = Some (h', r) →
  ∃ l rps, r = VRef l ∧ length h ≤ l ∧ h' !! l = Some (Obj rps).
Proof.
  destruct fuel as [|n]; simpl; [done|].
  destruct (obj_at h b) as [bps|]; [|done]. simpl.
  destruct (obj_at h f) as [fps|]; [|done]. simpl.
  destruct (merge_keys _ _ _ _ _) as [[h1 rps]|] eqn:E; [|done]. simpl.
  intros [= <- <-]. exists (length h1), rps. split_and!; [done| |].
  - apply prefix_length. eapply merge_keys_prefix; [|done].
    apply mergeOptions_prefix.
  - apply lookup_alloc.
Qed.

(** *** Termination: enough fuel for the fragment's depth *)

Lemma depth_le_obj d (h : heap) l ps :
  h !! l = Some (Obj ps) →
  depth_le (S d) h (VRef l) = true ↔
  ∀ k x, ps !! k = Some x → depth_le d h x = true.
Proof.
  intros Hl. simpl. rewrite Hl, forallb_forall. split.
  - intros H k x Hk. apply (H (k, x)).
    apply list_elem_of_In. by apply elem_of_map_to_list.
  - intros H [k x] Hin%list_elem_of_In%elem_of_map_to_list. by eapply H.
Qed.

Lemma depth_le_mono d : ∀ (h h' : heap) v,
  h `prefix_of` h' → depth_le d h v = true → depth_le d h' v = true.
Proof.
  induction d as [|d IH]; intros h h' v Hp; destruct v as [| | | | |l]; try done.
  - simpl. destruct (h !! l) as [c|] eqn:E; [|done].
    rewrite (prefix_lookup_Some _ _ _ _ E Hp). by destruct c.
  - destruct (h !! l) as [[ps|es]|] eqn:E.
    + rewrite (depth_le_obj _ _ _ _ E).
      rewrite (depth_le_obj _ _ _ _ (prefix_lookup_Some _ _ _ _ E Hp)).
      intros H k x Hk. eapply IH; [done|]. by eapply H.
    + simpl. by rewrite E, (prefix_lookup_Some _ _ _ _ E Hp).
    + simpl. by rewrite E.
Qed.

Lemma depth_le_more d : ∀ d' (h : heap) v,
  d ≤ d' → depth_le d h v = true → depth_le d' h v = true.
Proof.
  induction d as [|d IH]; intros d' h v Hd;
    destruct v as [| | | | |l], d' as [|d']; try done; try lia.
  - simpl. by destruct (h !! l) as [[ps|es]|].
  - destruct (h !! l) as [[ps|es]|] eqn:E.
    + rewrite !(depth_le_obj _ _ _ _ E).
      intros H k x Hk. eapply IH; [lia|]. by eapply H.
    + simpl. by rewrite E.
    + simpl. by rewrite E.
Qed.

Lemma merge_keys_total rec bps n :
  rec_grows rec →
  (∀ (h : heap) bv fv,
     is_mapping h bv = true → is_mapping h fv = true →
     depth_le n h fv = true → is_Some (rec h bv fv)) →
  ∀ kvs (h : heap) acc,
    Forall (λ kv, depth_le n h kv.2 = true) kvs →
    is_Some (merge_keys rec bps kvs h acc).
Proof.
  intros Hgrow Hrec. induction kvs as [|[k fv] kvs IH]; intros h acc Hall.
  - by eexists.
  - apply Forall_cons in Hall as [Hfv Hall]. simpl in *.
    destruct (is_mapping h _ && is_mapping h fv) eqn:Eb.
    + apply andb_true_iff in Eb as [Hb Hf].
      destruct (Hrec h _ fv Hb Hf Hfv) as [[h1 r] Hr]. rewrite Hr. simpl.
      apply IH. eapply Forall_impl; [exact Hall|].
      intros kv. apply depth_le_mono. by eapply Hgrow.
    + by apply IH.
Qed.

Lemma mergeOptions_total fuel : ∀ (h : heap) b f,
  is_mapping h b = true → is_mapping h f = true →
  depth_le fuel h f = true → is_Some (mergeOptions fuel h b f).
Proof.
  induction fuel as [|n IH]; intros h b f Hb Hf Hd.
  - apply is_mapping_true in Hf as [fps (l & -> & Hl)%obj_at_Some].
    simpl in Hd. by rewrite Hl in Hd.
  - apply is_mapping_true in Hb as [bps Hb].
    apply is_mapping_true in Hf as [fps Hf].
    simpl. rewrite Hb, Hf. simpl.
    destruct (merge_keys_total (mergeOptions n) bps n (mergeOptions_prefix n) IH
                (map_to_list fps) h bps) as [[h1 rps] Hk].
    { apply obj_at_Some in Hf as (l & -> & Hl).
      apply Forall_forall. intros [k x] Hin%elem_of_map_to_list.
      by eapply (depth_le_obj n h l fps Hl). }
    rewrite Hk. by eexists.
Qed.

(** *** What each key of the result holds *)

Lemma key_outcome_weaken rec (h0 h h' : heap) bv fv rv :
  h0 `prefix_of` h → key_outcome rec h h' bv fv rv → key_outcome rec h0 h' bv fv rv.
Proof.
  intros Hp (hk & ? & ? & ?). exists hk. split_and!; [by etrans|done..].
Qed.

Lemma merge_keys_lookup rec bps :
  rec_grows rec →
  ∀ kvs (h : heap) acc h' rps,
    NoDup kvs.*1 →
    merge_keys rec bps kvs h acc = Some (h', rps) →
    (∀ k, k ∉ kvs.*1 → rps !! k = acc !! k) ∧
    (∀ k fv, (k, fv) ∈ kvs →
       ∃ rv, rps !! k = Some rv ∧
         key_outcome rec h h' (default VUndefined (bps !! k)) fv rv).
Proof.
  intros Hgrow. induction kvs as [|[k0 fv0] kvs IH]; intros h acc h' rps Hnd.
  - simpl. intros [= <- <-]. split; [done|]. by intros k fv ?%elem_of_nil.
  - apply NoDup_cons in Hnd as [Hk0 Hnd]. simpl.
    destruct (is_mapping h _ && is_mapping h fv0) eqn:Eb.
    + destruct (rec h _ fv0) as [[h1 r]|] eqn:Er; [|done]. simpl. intros Hm.
      destruct (IH _ _ _ _ Hnd Hm) as [Hout Hin].
      pose proof (Hgrow _ _ _ _ _ Er) as Hp1.
      pose proof (merge_keys_prefix _ _ _ Hgrow _ _ _ _ Hm) as Hp2.
      split.
      * intros k [Hne Hk]%not_elem_of_cons.
        by rewrite (Hout k Hk), lookup_insert_ne.
      * intros k fv [[= -> ->]|Hkv]%elem_of_cons.
        -- exists r. split; [by rewrite (Hout k0 Hk0), lookup_insert_eq|].
           exists h. split_and!; [done|by etrans|]. rewrite Eb. eauto.
        -- destruct (Hin k fv Hkv) as (rv & ? & ?). exists rv. split; [done|].
           by eapply key_outcome_weaken.
    + intros Hm. destruct (IH _ _ _ _ Hnd Hm) as [Hout Hin].
      pose proof (merge_keys_prefix _ _ _ Hgrow _ _ _ _ Hm) as Hp2.
      split.
      * intros k [Hne Hk]%not_elem_of_cons.
        by rewrite (Hout k Hk), lookup_insert_ne.
      * intros k fv [[= -> ->]|Hkv]%elem_of_cons.
        -- exists fv0. split; [by rewrite (Hout k0 Hk0), lookup_insert_eq|].
           exists h. split_and!; [done..|]. by rewrite Eb.
        -- by apply Hin.
Qed.

Lemma mergeOptions_keys n (h : heap) b f h' r :
  mergeOptions (S n) h b f = Some (h', r) →
  ∃ bps fps rps,
    obj_at h b = Some bps ∧ obj_at h f = Some fps ∧
    obj_at h r = None ∧ obj_at h' r = Some rps ∧
    (∀ k, fps !! k = None → rps !! k = bps !! k) ∧
    (∀ k fv, fps !! k = Some fv →
       ∃ rv, rps !! k = Some rv ∧
         key_outcome (mergeOptions n) h h' (default VUndefined (bps !! k)) fv rv).
Proof.
  simpl.
  destruct (obj_at h b) as [bps|]; [|done]. simpl.
  destruct (obj_at h f) as [fps|]; [|done]. simpl.
  destruct (merge_keys _ _ _ _ _) as [[h1 rps]|] eqn:E; [|done]. simpl.
  intros [= <- <-].
  pose proof (merge_keys_prefix _ _ _ (mergeOptions_prefix n) _ _ _ _ E) as Hp.
  destruct (merge_keys_lookup _ bps (mergeOptions_prefix n) _ _ _ _ _
              (NoDup_fst_map_to_list fps) E) as [Hout Hin].
  exists bps, fps, rps. split_and!; [done..| | | |].
  - apply obj_at_fresh. by apply prefix_length.
  - simpl. by rewrite lookup_alloc.
  - intros k Hk. apply Hout. intros ([k' x] & -> & Hin')%list_elem_of_fmap.
    apply elem_of_map_to_list in Hin'. simpl in Hk. congruence.
  - intros k fv Hk%elem_of_map_to_list.
    destruct (Hin k fv Hk) as (rv & ? & hk & ? & ? & Ho).
    exists rv. split; [done|]. exists hk. split_and!; [done| |].
    + etrans; [done|]. by apply prefix_app_r.
    + destruct (is_mapping hk _ && is_mapping hk fv); [|done].
      destruct Ho as (hk' & ? & ?). exists hk'. split; [done|].
      etrans; [done|]. by apply prefix_app_r.
Qed.

(** *** The result carries the fragment *)

Lemma covers_leaf d (h : heap) fv r :
  obj_at h fv = None → covers d h fv r → r = fv.
Proof. intros E. destruct d; simpl; by rewrite E. Qed.

Lemma covers_obj d (h : heap) fv r fps :
  obj_at h fv = Some fps → covers (S d) h fv r →
  ∃ rps, obj_at h r = Some rps ∧
    ∀ k x, fps !! k = Some x → ∃ y, rps !! k = Some y ∧ covers d h x y.
Proof. intros E. simpl. by rewrite E. Qed.

Lemma covers_refl d : ∀ (h : heap) v, covers d h v v.
Proof.
  induction d as [|d IH]; intros h v; simpl;
    destruct (obj_at h v) as [ps|] eqn:E; try done.
  exists ps. split; [done|]. intros k x Hk. exists x. split; [done|]. apply IH.
Qed.

Lemma covers_mono d : ∀ (h h' : heap) fv r,
  h `prefix_of` h' → covers d h fv r → covers d h' fv r.
Proof.
  induction d as [|d IH]; intros h h' fv r Hp; simpl;
    destruct (obj_at h fv) as [fps|] eqn:E.
  - by rewrite (obj_at_mono _ _ _ _ Hp E).
  - intros ->. apply (covers_refl 0).
  - rewrite (obj_at_mono _ _ _ _ Hp E).
    intros (rps & Hr & Hk). exists rps. split; [by eapply obj_at_mono|].
    intros k x Hx. destruct (Hk k x Hx) as (y & ? & ?). exists y.
    split; [done|]. by eapply IH.
  - intros ->. apply (covers_refl (S d)).
Qed.

Lemma mergeOptions_covers fuel : ∀ (h : heap) b f h' r,
  mergeOptions fuel h b f = Some (h', r) → ∀ d, covers d h' f r.
Proof.
  induction fuel as [|n IH]; intros h b f h' r Hm d; [done|].
  pose proof (mergeOptions_prefix _ _ _ _ _ _ Hm) as Hp.
  destruct (mergeOptions_keys _ _ _ _ _ _ Hm)
    as (bps & fps & rps & Hb & Hf & _ & Hr & _ & Hin).
  pose proof (obj_at_mono _ _ _ _ Hp Hf) as Hf'.
  destruct d as [|d]; simpl; rewrite Hf'; [done|].
  exists rps. split; [done|]. intros k x Hx.
  destruct (Hin k x Hx) as (rv & Hrv & hk & Hp1 & Hp2 & Hout).
  exists rv. split; [done|].
  destruct (is_mapping hk _ && is_mapping hk x).
  - destruct Hout as (hk' & Hrec & Hp3).
    eapply covers_mono; [exact Hp3|]. by eapply IH.
  - subst rv. apply covers_refl.
Qed.

Lemma atomic_not_mapping (h h' : heap) v :
  h `prefix_of` h' → atomic h v → is_mapping h' v = false.
Proof.
  intros Hp. destruct v as [| | | | |l]; try done.
  intros [es Hes]. apply (arr_at_mono _ _ _ _ Hp) in Hes.
  apply arr_at_Some in Hes as (l' & [= <-] & Hl).
  unfold is_mapping. simpl. by rewrite Hl.
Qed.

(** C2.  The merge engine, given two mappings and enough fuel for the
    fragment's depth, returns a new mapping and writes to neither
    argument.  Its keys are the union of the two key sets.  A key of the
    base that the fragment lacks keeps the base's value.  At a key of
    the fragment: if both values are mappings, the result holds their
    recursive merge; if the fragment's value is a scalar or an array, or
    the base has no value there or a scalar or an array, the result
    holds the fragment's value itself.  In particular an array of the
    fragment replaces whatever the base has.  At every depth the result
    carries the fragment's values ([covers]). *)
Theorem mergeOptions_spec (fuel : nat) (h : heap) (base frag : value)
    (bps fps : gmap string value) :
  obj_at h base = Some bps →
  obj_at h frag = Some fps →
  depth_le fuel h frag = true →
  ∃ h' r rps,
    mergeOptions fuel h base frag = Some (h', r) ∧
    h `prefix_of` h' ∧
    obj_at h r = None ∧
    obj_at h' r = Some rps ∧
    dom rps = dom bps ∪ dom fps ∧
    (∀ k, fps !! k = None → rps !! k = bps !! k) ∧
    (∀ k bv fv bps' fps',
       bps !! k = Some bv → fps !! k = Some fv →
       obj_at h bv = Some bps' → obj_at h fv = Some fps' →
       ∃ h1 h2 rv,
         h `prefix_of` h1 ∧ h2 `prefix_of` h' ∧
         mergeOptions (fuel - 1) h1 bv fv = Some (h2, rv) ∧
         rps !! k = Some rv) ∧
    (∀ k fv,
       fps !! k = Some fv →
       atomic h fv ∨ bps !! k = None ∨ (∃ bv, bps !! k = Some bv ∧ atomic h bv) →
       rps !! k = Some fv) ∧
    (∀ k fv es,
       fps !! k = Some fv → arr_at h fv = Some es → rps !! k = Some fv) ∧
    ∀ d, covers d h' frag r.
Proof.
  intros Hb Hf Hd.
  destruct (mergeOptions_total fuel h base frag) as [[h' r] Hm]; try done.
  { apply is_mapping_true. eauto. }
  { apply is_mapping_true. eauto. }
  destruct fuel as [|n]; [done|].
  destruct (mergeOptions_keys _ _ _ _ _ _ Hm)
    as (bps0 & fps0 & rps & Hb0 & Hf0 & Hfresh & Hr & Hout & Hin).
  rewrite Hb in Hb0. rewrite Hf in Hf0. simplify_eq.
  assert (Hrepl : ∀ k fv,
    fps0 !! k = Some fv →
    atomic h fv ∨ bps0 !! k = None ∨ (∃ bv, bps0 !! k = Some bv ∧ atomic h bv) →
    rps !! k = Some fv).
  { intros k fv Hk Hcase.
    destruct (Hin k fv Hk) as (rv & Hrv & hk & Hp1 & Hp2 & Ho).
    assert (is_mapping hk (default VUndefined (bps0 !! k)) && is_mapping hk fv
            = false) as Hfalse.
    { destruct Hcase as [Ha|[Hnone|(bv & Hbv & Ha)]].
      - rewrite (atomic_not_mapping _ _ _ Hp1 Ha). apply andb_false_r.
      - by rewrite Hnone.
      - rewrite Hbv. simpl. by rewrite (atomic_not_mapping _ _ _ Hp1 Ha). }
    rewrite Hfalse in Ho. by subst rv. }
  exists h', r, rps. split_and!; try done.
  - by eapply mergeOptions_prefix.
  - apply set_eq. intros k. rewrite elem_of_union, !elem_of_dom.
    destruct (fps0 !! k) as [fv|] eqn:Ek.
    + destruct (Hin k fv Ek) as (rv & -> & _). split; eauto.
    + rewrite (Hout k Ek). split; [eauto|]. intros [?|[? [=]]]. done.
  - intros k bv fv bps' fps' Hbv Hfv Hbo Hfo.
    destruct (Hin k fv Hfv) as (rv & Hrv & hk & Hp1 & Hp2 & Ho).
    rewrite Hbv in Ho. simpl in Ho.
    assert (is_mapping hk bv = true) as Hmb.
    { apply is_mapping_true. eauto using obj_at_mono. }
    assert (is_mapping hk fv = true) as Hmf.
    { apply is_mapping_true. eauto using obj_at_mono. }
    rewrite Hmb, Hmf in Ho. simpl in Ho. destruct Ho as (hk' & Hrec & Hp3).
    exists hk, hk', rv. by replace (S n - 1) with n by lia.
  - intros k fv es Hk Hes. apply Hrepl; [done|]. left.
    apply arr_at_Some in Hes as Hes'. destruct Hes' as (l & -> & _).
    simpl. eauto.
  - by eapply mergeOptions_covers.
Qed.

(** ** [displayAxes] *)

Lemma axes_fragment_eq display (h : heap) :
  axes_fragment display h
    = (h ++ axes_cells display (length h), VRef (length h + 6)).
Proof.
  unfold axes_fragment, alloc, axes_cells. rewrite !length_app. simpl.
  rewrite <- !app_assoc. simpl. rewrite <- !Nat.add_assoc. simpl. done.
Qed.

Lemma lookup_cells (h h' : heap) cells i c :
  (h ++ cells) `prefix_of` h' → cells !! i = Some c →
  h' !! (length h + i) = Some c.
Proof.
  intros Hp Hc. eapply prefix_lookup_Some; [|exact Hp].
  by rewrite lookup_extend.
Qed.

Lemma axes_fragment_depth display (h h' : heap) :
  (h ++ axes_cells display (length h)) `prefix_of` h' →
  depth_le 3 h' (VRef (length h + 6)) = true.
Proof.
  intros Hp.
  apply (depth_le_obj _ _ _ _ (lookup_cells _ _ _ 6 _ Hp eq_refl)).
  intros k x [_ <-]%lookup_singleton_Some.
  apply (depth_le_obj _ _ _ _ (lookup_cells _ _ _ 5 _ Hp eq_refl)).
  intros k' x [_ <-]%lookup_singleton_Some.
  apply (depth_le_obj _ _ _ _ (lookup_cells _ _ _ 4 _ Hp eq_refl)).
  intros k'' x [[_ <-]|[_ [_ <-]%lookup_singleton_Some]]%lookup_insert_Some.
  - simpl. by rewrite (lookup_cells _ _ _ 1 _ Hp eq_refl).
  - simpl. by rewrite (lookup_cells _ _ _ 3 _ Hp eq_refl).
Qed.

Lemma get_prop_obj (h : heap) v ps k x :
  obj_at h v = Some ps → ps !! k = Some x → get_prop h v k = Some x.
Proof. intros (l & -> & Hl)%obj_at_Some Hk. simpl. by rewrite Hl, Hk. Qed.

(** A result that carries the fragment of [displayAxes] reads back as
    that fragment's axes. *)
Lemma covers_axes display (h h' : heap) r :
  (h ++ axes_cells display (length h)) `prefix_of` h' →
  covers 3 h' (VRef (length h + 6)) r → axes_display h' r display.
Proof.
  intros Hp Hc.
  pose proof (λ i c, lookup_cells h h' _ i c Hp) as Hcell.
  eapply covers_obj in Hc as (rps & Hr & Hk);
    [|simpl; by rewrite (Hcell 6 _ eq_refl)].
  destruct (Hk "options" _ (lookup_singleton_eq _ _)) as (o & Hro & Hc).
  eapply covers_obj in Hc as (ops & Ho & Hk');
    [|simpl; by rewrite (Hcell 5 _ eq_refl)].
  destruct (Hk' "scales" _ (lookup_singleton_eq _ _)) as (s & Hos & Hc').
  eapply covers_obj in Hc' as (sps & Hs & Hk'');
    [|simpl; by rewrite (Hcell 4 _ eq_refl)].
  destruct (Hk'' "xAxes" (VRef (length h + 1))) as (xa & Hsx & Hcx);
    [done|].
  destruct (Hk'' "yAxes" (VRef (length h + 3))) as (ya & Hsy & Hcy);
    [done|].
  apply covers_leaf in Hcx; [|simpl; by rewrite (Hcell 1 _ eq_refl)].
  apply covers_leaf in Hcy; [|simpl; by rewrite (Hcell 3 _ eq_refl)].
  subst xa ya.
  exists o, s, (VRef (length h + 1)), (VRef (length h + 3)),
    (VRef (length h + 0)), (VRef (length h + 2)).
  split_and!; try (by eapply get_prop_obj).
  - simpl. by rewrite (Hcell 1 _ eq_refl), Nat.add_0_r.
  - simpl. by rewrite (Hcell 0 _ eq_refl).
  - simpl. by rewrite (Hcell 3 _ eq_refl).
  - simpl. by rewrite (Hcell 2 _ eq_refl).
Qed.

Lemma displayAxes_hook_run display strict fuel (h : heap) chart :
  truthy strict = false → is_mapping h chart = true → 3 ≤ fuel →
  ∃ h' r,
    run_hook fuel (displayAxes_fn display strict) h chart = Some (h', r) ∧
    h `prefix_of` h' ∧
    is_mapping h' r = true ∧
    axes_display h' r display.
Proof.
  intros Hstrict Hchart Hfuel. cbn [run_hook]. rewrite Hstrict.
  rewrite axes_fragment_eq.
  set (h1 := h ++ axes_cells display (length h)).
  assert (Hp1 : h `prefix_of` h1) by (by apply prefix_app_r).
  destruct (mergeOptions_total fuel h1 chart (VRef (length h + 6)))
    as [[h' r] Hm].
  { by eapply is_mapping_mono. }
  { unfold is_mapping, h1. simpl. by rewrite (lookup_extend _ _ 6). }
  { eapply depth_le_more; [exact Hfuel|].
    by apply (axes_fragment_depth display h h1). }
  exists h', r. split; [done|].
  pose proof (mergeOptions_prefix _ _ _ _ _ _ Hm) as Hp2.
  split_and!.
  - by etrans.
  - destruct (mergeOptions_result _ _ _ _ _ _ Hm) as (l & rps & -> & _ & Hl).
    unfold is_mapping. simpl. by rewrite Hl.
  - eapply covers_axes; [exact Hp2|]. by eapply mergeOptions_covers.
Qed.

(** C8.  On every configuration object, applying the chain registered by
    [displayAxes(true, false)] and then [displayAxes(false, false)]
    gives a configuration whose [options.scales.xAxes] and
    [options.scales.yAxes] are each the one-element array
    [[{display: false}]] of the second call: the first call's arrays are
    replaced, not extended. *)
Theorem displayAxes_twice_replaces (st : state) (h : heap) (chart : value)
    (cps : gmap string value) (fuel : nat) :
  obj_at h chart = Some cps →
  3 ≤ fuel →
  let st' := displayAxes (VBool false) (VBool false)
               (displayAxes (VBool true) (VBool false) st) in
  st'.2 = st.2 ++ [displayAxes_fn (VBool true) (VBool false);
                   displayAxes_fn (VBool false) (VBool false)] ∧
  ∃ h' r,
    apply_hooks fuel [displayAxes_fn (VBool true) (VBool false);
                      displayAxes_fn (VBool false) (VBool false)] h chart
      = Some (h', r) ∧
    axes_display h' r (VBool false).
Proof.
  intros Hchart Hfuel st'. split.
  { unfold st', displayAxes. simpl. by rewrite <- app_assoc. }
  destruct (displayAxes_hook_run (VBool true) (VBool false) fuel h chart)
    as (h1 & r1 & Hrun1 & _ & Hr1 & _); try done.
  { apply is_mapping_true. eauto. }
  destruct (displayAxes_hook_run (VBool false) (VBool false) fuel h1 r1)
    as (h2 & r2 & Hrun2 & _ & _ & Hax); try done.
  exists h2, r2. split; [|done].
  cbn [apply_hooks]. rewrite Hrun1. cbn [mbind option_bind].
  rewrite Hrun2. done.
Qed.

(** ** Which hooks write to the caller's configuration *)

Lemma map_from_alloc_inv lit es : ∀ (h : heap) i h' xs,
  map_from (alloc_cb lit) h es i = Some (h', xs) →
  ∃ pss : list (gmap string value),
    length pss = length es ∧
    h' = h ++ (Obj <$> pss) ∧
    xs = VRef <$> seq (length h) (length es).
Proof.
  induction es as [|e es IH]; intros h i h' xs; simpl.
  - intros [= <- <-]. exists []. by rewrite app_nil_r.
  - destruct (alloc_cb lit h e i) as [[h1 x]|] eqn:Ecb; [|done]. simpl.
    destruct (map_from _ h1 es (S i)) as [[h2 xs']|] eqn:E; [|done]. simpl.
    intros [= <- <-].
    unfold alloc_cb in Ecb. destruct (lit h e i) as [ps|]; [|done].
    injection Ecb as <- <-.
    destruct (IH _ _ _ _ E) as (pss & Hlen & -> & ->).
    exists (ps :: pss). split_and!.
    + simpl. by rewrite Hlen.
    + by rewrite <- app_assoc.
    + rewrite length_app. simpl. by rewrite Nat.add_1_r.
Qed.

Lemma map_datasets_inv lit (h : heap) chart h' r :
  map_datasets (alloc_cb lit) h chart = Some (h', r) →
  r = chart ∧
  ∃ v, datasets_of h chart = Some v ∧
    if truthy v
    then ∃ ld dps pss ds,
           get_prop h chart "data" = Some (VRef ld) ∧
           h !! ld = Some (Obj dps) ∧
           dps !! "datasets" = Some v ∧
           arr_at h v = Some ds ∧
           length pss = length ds ∧
           h' = rebuilt h ld dps pss
    else h' = h.
Proof.
  unfold map_datasets.
  destruct (datasets_of h chart) as [v|] eqn:Hd; [|done]. simpl.
  destruct (truthy v) eqn:Htruthy; [|intros [= <- <-]; split; [done|];
    exists v; by rewrite Htruthy].
  destruct (get_prop h chart "data") as [data|] eqn:Edata; [|done]. simpl.
  unfold array_map.
  destruct (arr_at h v) as [ds|] eqn:Ha; [|done]. simpl.
  destruct (map_from _ h ds 0) as [[h1 xs]|] eqn:Emap; [|done]. simpl.
  destruct (map_from_alloc_inv _ _ _ _ _ _ Emap) as (pss & Hlen & -> & ->).
  destruct (datasets_of_arr _ _ _ _ Hd Ha) as (ld & dps & Hdata & Hld & Hds).
  rewrite Edata in Hdata. injection Hdata as ->. simpl.
  pose proof (lookup_lt_Some _ _ _ Hld) as Hlt.
  rewrite !lookup_app_l by (rewrite ?length_app; lia). rewrite Hld. simpl.
  intros [= <- <-]. split; [done|]. exists v. split; [done|]. rewrite Htruthy.
  exists ld, dps, pss, ds. split_and!; try done.
  unfold rebuilt. by rewrite length_app, length_fmap, Hlen, <- app_assoc.
Qed.

Lemma rebuilt_reassigned (h : heap) chart ld dps pss dsv ds :
  get_prop h chart "data" = Some (VRef ld) →
  h !! ld = Some (Obj dps) →
  dps !! "datasets" = Some dsv →
  arr_at h dsv = Some ds →
  length pss = length ds →
  datasets_reassigned h (rebuilt h ld dps pss) chart.
Proof.
  intros Hdata Hld Hds Ha Hlen.
  exists ld, dps, dsv, ds, (VRef (length h + length pss)),
    (VRef <$> seq (length h) (length pss)).
  split_and!; try done.
  - by apply rebuilt_data.
  - intros l Hl Hne. destruct (lookup_lt_is_Some_2 h l Hl) as [c Hc].
    by rewrite Hc, (rebuilt_frame _ _ _ _ _ _ Hc Hne).
  - exists (length h + length pss). split; [done|lia].
  - by apply rebuilt_array.
  - by rewrite length_fmap, length_seq.
  - apply Forall_lookup. intros j d' Hj.
    rewrite list_lookup_fmap in Hj.
    destruct (seq (length h) (length pss) !! j) as [n|] eqn:Hseq; [|done].
    apply lookup_seq in Hseq as [-> Hjlt]. injection Hj as <-. split.
    + exists (length h + j). split; [done|lia].
    + rewrite (rebuilt_new h ld dps pss j Hld).
      by apply lookup_lt_is_Some_2.
Qed.

Lemma merge_hook_frame fuel (h h1 : heap) chart frag h' r :
  h `prefix_of` h1 → mergeOptions fuel h1 chart frag = Some (h', r) →
  h `prefix_of` h' ∧ fresh h r ∧ is_Some (obj_at h' r).
Proof.
  intros Hp Hm.
  destruct (mergeOptions_result _ _ _ _ _ _ Hm) as (l & rps & -> & Hl & Hr).
  split_and!.
  - etrans; [done|]. by eapply mergeOptions_prefix.
  - exists l. split; [done|]. apply prefix_length in Hp. lia.
  - simpl. rewrite Hr. eauto.
Qed.

Lemma depth_le_singleton d (h : heap) l k v :
  h !! l = Some (Obj {[k := v]}) → depth_le d h v = true →
  depth_le (S d) h (VRef l) = true.
Proof.
  intros Hl Hv. apply (depth_le_obj _ _ _ _ Hl).
  by intros k' x [_ <-]%lookup_singleton_Some.
Qed.

Lemma merge_fragment_total fuel d (h h1 : heap) chart l ps :
  h `prefix_of` h1 → is_Some (obj_at h chart) →
  h1 !! l = Some (Obj ps) → depth_le d h1 (VRef l) = true → d ≤ fuel →
  is_Some (mergeOptions fuel h1 chart (VRef l)).
Proof.
  intros Hp [cps Hchart] Hl Hd Hfuel. apply mergeOptions_total.
  - apply is_mapping_true. eauto using obj_at_mono.
  - unfold is_mapping. simpl. by rewrite Hl.
  - by eapply depth_le_more.
Qed.

Ltac grown := repeat (etrans; [|by apply prefix_app_r]); done.

Ltac cell_at :=
  repeat (rewrite lookup_app_l by (rewrite ?length_app; simpl; lia));
  apply lookup_alloc.

Lemma merge_hook_returns (hk : hook) (fuel d : nat) (h : heap) (chart : value) :
  merge_hook hk = true →
  is_Some (obj_at h chart) →
  captured_depth_le d h hk = true →
  d + 3 ≤ fuel →
  is_Some (run_hook fuel hk h chart).
Proof.
  intros Hmerge Hchart Hd Hfuel.
  destruct hk as [colors|m|legend|display strict|padding|t general|title|b];
    try done; simpl in Hd; cbn [run_hook]; unfold alloc.
  - eapply (merge_fragment_total _ (S (S d))); [grown|done|cell_at| |lia].
    eapply depth_le_singleton; [cell_at|].
    eapply depth_le_singleton; [cell_at|].
    eapply depth_le_mono; [|exact Hd]. grown.
  - eapply (merge_fragment_total _ (S (S d))); [grown|done|cell_at| |lia].
    eapply depth_le_singleton; [cell_at|].
    eapply depth_le_singleton; [cell_at|].
    eapply depth_le_mono; [|exact Hd]. grown.
  - destruct (truthy strict) eqn:Hstrict.
    + eapply (merge_fragment_total _ (S (S (S d)))); [grown|done|cell_at| |lia].
      eapply depth_le_singleton; [cell_at|].
      eapply depth_le_singleton; [cell_at|].
      eapply depth_le_singleton; [cell_at|].
      eapply depth_le_mono; [|exact Hd]. grown.
    + destruct (displayAxes_hook_run display strict fuel h chart)
        as (h' & r & Hrun & _); [done| |lia|].
      { apply is_mapping_true. destruct Hchart. eauto. }
      cbn [run_hook] in Hrun. rewrite Hstrict in Hrun. rewrite Hrun. eauto.
  - eapply (merge_fragment_total _ (S (S (S d)))); [grown|done|cell_at| |lia].
    eapply depth_le_singleton; [cell_at|].
    eapply depth_le_singleton; [cell_at|].
    eapply depth_le_singleton; [cell_at|].
    eapply depth_le_mono; [|exact Hd]. grown.
  - eapply (merge_fragment_total _ (S (S d))); [grown|done|cell_at| |lia].
    eapply depth_le_singleton; [cell_at|].
    eapply depth_le_singleton; [cell_at|].
    eapply depth_le_mono; [|exact Hd]. grown.
  - eapply (merge_fragment_total _ 3); [grown|done|cell_at| |lia].
    eapply depth_le_singleton; [cell_at|].
    eapply depth_le_singleton; [cell_at|].
    eapply depth_le_singleton; [cell_at|].
    simpl. assert (Hcell : ∀ (hh : heap) c1 c2 c3 c4 c5 c6,
      ((((((hh ++ [c1]) ++ [c2]) ++ [c3]) ++ [c4]) ++ [c5]) ++ [c6])
        !! length ((hh ++ [c1]) ++ [c2]) = Some c3).
    { intros. cell_at. }
    by rewrite Hcell.
Qed.

(** C3, as the code has it.  Applied to a configuration object, a hook
    that goes through the merge engine returns (given fuel for the depth
    of the value it captured); whenever it returns, every cell of the
    store is as it was and the result is a newly allocated mapping.  The
    hooks of [colors] and [datasets] return on well-typed input;
    whenever they return, they return the very object they were given,
    written in place.  [colors] writes nothing if the dataset sequence
    is falsy and otherwise reassigns the data block's [datasets] to a
    new array of new objects ([datasets_reassigned]).  [datasets] first
    assigns the configuration's [type] ([retyped]) and then does the
    same.  Nothing else is written. *)
Theorem hooks_write_only_type_and_datasets :
  (∀ hk fuel d (h : heap) chart,
     merge_hook hk = true →
     is_Some (obj_at h chart) →
     captured_depth_le d h hk = true →
     d + 3 ≤ fuel →
     is_Some (run_hook fuel hk h chart)) ∧
  (∀ hk fuel (h : heap) chart h' r,
     merge_hook hk = true →
     run_hook fuel hk h chart = Some (h', r) →
     h `prefix_of` h' ∧ fresh h r ∧ is_Some (obj_at h' r)) ∧
  (∀ colors fuel (h : heap) chart dsv ds es,
     arr_at h colors = Some es →
     datasets_of h chart = Some dsv →
     arr_at h dsv = Some ds →
     Forall (λ d, is_Some (own_props h d)) ds →
     is_Some (run_hook fuel (colors_fn colors) h chart)) ∧
  (∀ colors fuel (h : heap) chart h' r,
     run_hook fuel (colors_fn colors) h chart = Some (h', r) →
     r = chart ∧
     ∃ v, datasets_of h chart = Some v ∧
       if truthy v then datasets_reassigned h h' chart else h' = h) ∧
  (∀ t general fuel (h : heap) chart dsv ds ts,
     datasets_of h chart = Some dsv →
     arr_at h dsv = Some ds →
     arr_at h t = Some ts →
     Forall (λ d, d ≠ chart ∧ is_Some (own_props h d)) ds →
     Forall (λ f, f ≠ chart ∧ is_Some (own_props h f)) ts →
     is_Some (run_hook fuel (datasets_fn t general) h chart)) ∧
  (∀ t general fuel (h : heap) chart h' r,
     run_hook fuel (datasets_fn t general) h chart = Some (h', r) →
     r = chart ∧
     ∃ lc cps v,
       chart = VRef lc ∧ h !! lc = Some (Obj cps) ∧
       datasets_of h chart = Some v ∧
       if truthy v
       then datasets_reassigned (retyped h lc cps general) h' chart
       else h' = retyped h lc cps general).
Proof.
  split_and!.
  - intros hk fuel d h chart. apply merge_hook_returns.
  - intros hk fuel h chart h' r Hmerge.
    destruct hk as [colors|m|legend|display strict|padding|t general|title|b];
      try done; cbn [run_hook]; unfold axes_fragment, alloc.
    + apply merge_hook_frame. grown.
    + apply merge_hook_frame. grown.
    + destruct (truthy strict); apply merge_hook_frame; grown.
    + apply merge_hook_frame. grown.
    + apply merge_hook_frame. grown.
    + apply merge_hook_frame. grown.
  - intros colors fuel h chart dsv ds es Hpal Hd Ha Hobj.
    destruct (colors_hook_run colors h chart dsv ds es fuel Hpal Hd Ha Hobj)
      as (ld & dps & pss & _ & _ & _ & -> & _). eauto.
  - intros colors fuel h chart h' r. cbn [run_hook].
    intros (-> & v & Hd & Hv)%map_datasets_inv. split; [done|].
    exists v. split; [done|]. destruct (truthy v); [|done].
    destruct Hv as (ld & dps & pss & ds & Hdata & Hld & Hds & Ha & Hlen & ->).
    by eapply rebuilt_reassigned.
  - intros t general fuel h chart dsv ds ts Hd Ha Ht Hobj Hfrag.
    destruct (datasets_hook_run t general h chart dsv ds ts fuel Hd Ha Ht Hobj Hfrag)
      as (lc & cps & ld & dps & pss & _ & _ & _ & _ & _ & -> & _). eauto.
  - intros t general fuel h chart h' r. cbn [run_hook].
    destruct chart as [| | | | |lc]; try done. simpl.
    destruct (h !! lc) as [[cps|]|] eqn:Hlc; try done. simpl.
    fold (retyped h lc cps general).
    intros (-> & v & Hd & Hv)%map_datasets_inv. split; [done|].
    exists lc, cps, v. split_and!; try done.
    { by rewrite <- (retyped_datasets_of _ _ _ general Hlc). }
    destruct (truthy v); [|done].
    destruct Hv as (ld & dps & pss & ds & Hdata & Hld & Hds & Ha & Hlen & ->).
    by eapply rebuilt_reassigned.
Qed.

(** ** What the registration methods capture *)

Lemma title_registers (v : value) (h0 : heap) (hooks : list hook) (st' : state) :
  title v (h0, hooks) = Some st' →
  h0 `prefix_of` st'.1 ∧
  st'.2 = hooks ++ [title_fn (VRef (length st'.1 - 1))] ∧
  length h0 < length st'.1.
Proof.
  unfold title.
  destruct v as [| | | | |l]; simpl; rewrite ?lookup_alloc; simpl.
  6: destruct (h0 !! l) as [[ps|]|]; simpl; try done.
  all: intros [= <-]; simpl; rewrite ?length_app; simpl.
  all: split_and!; [|repeat f_equal; lia|lia].
  all: repeat (etrans; [|by apply prefix_app_r]); done.
Qed.

(** After [v.k = x] the object [v] holds [x] at [k]. *)
Lemma set_prop_Some (h : heap) v k x hm :
  set_prop h v k x = Some hm →
  ∃ l ps, v = VRef l ∧ hm !! l = Some (Obj ps) ∧ ps !! k = Some x.
Proof.
  destruct v as [| | | | |l]; try done. simpl.
  destruct (h !! l) as [[ps|]|] eqn:Hl; try done. intros [= <-].
  exists l, (<[k := x]> ps). split_and!; [done| |by rewrite lookup_insert_eq].
  rewrite list_lookup_insert_eq; [done|]. by eapply lookup_lt_Some.
Qed.

Lemma datasets_hook_reads_fragment (t general : value) (fuel : nat)
    (h : heap) (chart dsv : value) (ds ts : list value) (f : value)
    (fs : gmap string value) (k : string) (x : value) (j : nat) :
  own_props h f = Some fs → fs !! k = Some x →
  ts !! j = Some f →
  arr_at h t = Some ts →
  datasets_of h chart = Some dsv → arr_at h dsv = Some ds →
  Forall (λ d, d ≠ chart ∧ is_Some (own_props h d)) ds →
  Forall (λ f, f ≠ chart ∧ is_Some (own_props h f)) ts →
  ∃ h',
    run_hook fuel (datasets_fn t general) h chart = Some (h', chart) ∧
    ∀ i, i < length ds → i mod length ts = j →
      ∃ new, dataset_at h' chart i = Some new ∧ new !! k = Some x.
Proof.
  intros Hf Hk Hj Ht Hd Ha Hobj Hfrag.
  destruct (datasets_hook_run t general h chart dsv ds ts fuel Hd Ha Ht Hobj Hfrag)
    as (lc & cps & ld & dps & pss & -> & Hlc & Hdata & Hld & Hlen & Hrun & Hpss).
  eexists. split; [exact Hrun|]. intros i Hi Hmod.
  destruct (lookup_lt_is_Some_2 ds i Hi) as [d Hdi].
  destruct (Hpss i d Hdi) as (ps & fs' & _ & Hfs' & Hnew).
  assert (Hts : 0 < length ts).
  { apply lookup_lt_Some in Hj. lia. }
  destruct (elem_at_cycle ts i Hts) as (c & Hc & Hc').
  rewrite Hmod, Hj in Hc. injection Hc as <-.
  rewrite Hc', Hf in Hfs'. injection Hfs' as <-.
  exists (fs ∪ ps). split.
  - by rewrite (rebuilt_dataset_at _ _ _ _ _ _ Hdata Hld).
  - by apply lookup_union_Some_l.
Qed.

Lemma legend_hook_reads_object (legend : value) (fuel d : nat) (h : heap)
    (chart : value) (lps : gmap string value) (k : string) (x : value) :
  obj_at h legend = Some lps → lps !! k = Some x → atomic h x →
  is_Some (obj_at h chart) →
  depth_le d h legend = true → d + 2 ≤ fuel →
  ∃ h' r options merged,
    run_hook fuel (legend_fn legend) h chart = Some (h', r) ∧
    get_prop h' r "options" = Some options ∧
    get_prop h' options "legend" = Some merged ∧
    get_prop h' merged k = Some x.
Proof.
  intros Hlegend Hk Hx Hchart Hd Hfuel. cbn [run_hook]. unfold alloc.
  set (h1 := h ++ [Obj {["legend" := legend]}]).
  set (h2 := h1 ++ [Obj {["options" := VRef (length h)]}]).
  assert (Hp : h `prefix_of` h2) by (unfold h2, h1; grown).
  assert (Hfrag : h2 !! length h1 = Some (Obj {["options" := VRef (length h)]})).
  { unfold h2. cell_at. }
  assert (Hopts : h2 !! length h = Some (Obj {["legend" := legend]})).
  { unfold h2, h1. cell_at. }
  destruct (merge_fragment_total fuel (S (S d)) h h2 chart (length h1) _
              Hp Hchart Hfrag) as [[h' r] Hm]; [|lia|].
  { eapply depth_le_singleton; [exact Hfrag|].
    eapply depth_le_singleton; [exact Hopts|].
    by eapply depth_le_mono. }
  pose proof (mergeOptions_prefix _ _ _ _ _ _ Hm) as Hp'.
  pose proof (mergeOptions_covers _ _ _ _ _ _ Hm 3) as Hc.
  eapply covers_obj in Hc as (rps & Hr & Hrk);
    [|simpl; by rewrite (prefix_lookup_Some _ _ _ _ Hfrag Hp')].
  destruct (Hrk "options" _ (lookup_singleton_eq _ _)) as (o & Hro & Hco).
  eapply covers_obj in Hco as (ops & Ho & Hok);
    [|simpl; by rewrite (prefix_lookup_Some _ _ _ _ Hopts Hp')].
  destruct (Hok "legend" _ (lookup_singleton_eq _ _)) as (m & Hom & Hcm).
  eapply covers_obj in Hcm as (mps & Hmo & Hmk);
    [|eapply obj_at_mono; [|exact Hlegend]; by etrans].
  destruct (Hmk k x Hk) as (y & Hy & Hcy).
  apply covers_leaf in Hcy.
  2: { assert (is_mapping h' x = false) as Hnm.
       { eapply atomic_not_mapping; [|exact Hx]. by etrans. }
       unfold is_mapping in Hnm. by destruct (obj_at h' x). }
  subst y. exists h', r, o, m. split_and!; [done|..]; by eapply get_prop_obj.
Qed.

(** C9, as the code has it.  A registration method only allocates: every
    cell of the store, so every argument object, is left as it was.
    What the hook captures depends on the method.  [colors], [padding]
    and [legend] (given anything but a boolean or nothing) capture the
    argument itself, not a copy.  [datasets] captures a new list whose
    entries are new [{type: e}] objects for strings and the caller's own
    entries otherwise.  [title] captures a new object.  A hook reads
    what it captured when it runs: after [f.k = x] on an entry [f] of
    the list, the [datasets] hook gives [k: x] to every dataset matched
    with [f]; after [legend.k = x] on the captured legend object, with
    [x] a scalar or an array, the result of the [legend] hook has [x] at
    [options.legend.k]. *)
Theorem registration_captures_arguments :
  (∀ colorPalette c (st st' : state),
     register colorPalette c st = Some st' →
     st.1 `prefix_of` st'.1 ∧
     match c with
     | call_colors v => st' = (st.1, st.2 ++ [colors_fn (dflt v colorPalette)])
     | call_padding v => st' = (st.1, st.2 ++ [padding_fn (dflt v (VNum 5))])
     | call_legend v =>
         match v with
         | VUndefined | VBool _ =>
             st'.2 = st.2 ++ [legend_fn (VRef (length st.1))]
         | _ => st' = (st.1, st.2 ++ [legend_fn v])
         end
     | call_datasets types general =>
         ∃ t ts,
           st'.2 = st.2 ++ [datasets_fn t (dflt general (VStr "bar"))] ∧
           arr_at st.1 t = None ∧ arr_at st'.1 t = Some ts ∧
           normalized st.1 st'.1 types ts
     | call_title v =>
         st'.2 = st.2 ++ [title_fn (VRef (length st'.1 - 1))] ∧
         length st.1 < length st'.1
     | _ => True
     end) ∧
  (∀ t general fuel (h hm : heap) chart dsv ds ts f k x j,
     set_prop h f k x = Some hm →
     ts !! j = Some f →
     arr_at hm t = Some ts →
     datasets_of hm chart = Some dsv →
     arr_at hm dsv = Some ds →
     Forall (λ d, d ≠ chart ∧ is_Some (own_props hm d)) ds →
     Forall (λ f, f ≠ chart ∧ is_Some (own_props hm f)) ts →
     ∃ h',
       run_hook fuel (datasets_fn t general) hm chart = Some (h', chart) ∧
       ∀ i, i < length ds → i mod length ts = j →
         ∃ new, dataset_at h' chart i = Some new ∧ new !! k = Some x) ∧
  (∀ legend fuel d (h hm : heap) chart k x,
     set_prop h legend k x = Some hm →
     atomic hm x →
     is_Some (obj_at hm chart) →
     depth_le d hm legend = true →
     d + 2 ≤ fuel →
     ∃ h' r options merged,
       run_hook fuel (legend_fn legend) hm chart = Some (h', r) ∧
       get_prop h' r "options" = Some options ∧
       get_prop h' options "legend" = Some merged ∧
       get_prop h' merged k = Some x).
Proof.
  split_and!.
  - intros colorPalette c [h0 hooks] st' Hreg. split.
    + destruct c as [v|v|v|d s|v|v|types general|v|v]; cbn [register] in Hreg.
      * by injection Hreg as <-.
      * by injection Hreg as <-.
      * injection Hreg as <-. destruct v; simpl; try done; grown.
      * by injection Hreg as <-.
      * injection Hreg as <-. unfold minimalist. simpl.
        by apply prefix_app_r.
      * by injection Hreg as <-.
      * destruct (datasets_registers types general (h0, hooks))
          as (h1 & t & ts & Heq & Hp & _). rewrite Heq in Hreg.
        by injection Hreg as <-.
      * by apply title_registers in Hreg as (? & _).
      * by injection Hreg as <-.
    + destruct c as [v|v|v|d s|v|v|types general|v|v]; cbn [register] in Hreg;
        try done.
      * by injection Hreg as <-.
      * injection Hreg as <-. by destruct v.
      * by injection Hreg as <-.
      * destruct (datasets_registers types general (h0, hooks))
          as (h1 & t & ts & Heq & _ & ? & ? & ?). rewrite Heq in Hreg.
        injection Hreg as <-. by exists t, ts.
      * by apply title_registers in Hreg as (_ & ? & ?).
  - intros t general fuel h hm chart dsv ds ts f k x j Hset.
    destruct (set_prop_Some _ _ _ _ _ Hset) as (l & fs & -> & Hl & Hk).
    apply datasets_hook_reads_fragment with (fs := fs); [|done].
    simpl. by rewrite Hl.
  - intros legend fuel d h hm chart k x Hset.
    destruct (set_prop_Some _ _ _ _ _ Hset) as (l & lps & -> & Hl & Hk).
    apply legend_hook_reads_object with (lps := lps); [|done].
    simpl. by rewrite Hl.
Qed.

(** * Worked instances *)

(** [datasets(['line','bar'])] on five datasets: the types cycle and the
    top-level type is ['bar']. *)
Example datasets_line_bar :
  datasets (VRef 8) VUndefined (ex_store, [])
    = Some (ex_registered, [datasets_fn (VRef 12) (VStr "bar")]) ∧
  ('(h', r) ← apply_hooks 0 [datasets_fn (VRef 12) (VStr "bar")]
                ex_registered (VRef 0);
   types ← dataset_types h' r;
   Some (r, get_prop h' r "type", types))
  = Some (VRef 0, Some (VStr "bar"),
          [Some (VStr "line"); Some (VStr "bar"); Some (VStr "line");
           Some (VStr "bar"); Some (VStr "line")]).
Proof. split; vm_compute; reflexivity. Qed.

(** [title("Revenue")] and [title({text: "Revenue", display: false})]. *)
Example title_revenue :
  title (VStr "Revenue") ([], [])
    = Some ([Obj {["text" := VStr "Revenue"; "display" := VBool true]}],
            [title_fn (VRef 0)]) ∧
  title (VRef 0) (ex_title, [])
    = Some (ex_title ++
              [Obj {["text" := VStr "Revenue"; "display" := VBool false]}],
            [title_fn (VRef 1)]).
Proof. split; vm_compute; reflexivity. Qed.

(** C3, counterexample.  The hook of [datasets] returns the object it
    was given, location 0, after assigning its [type] (['pie'] before,
    ['bar'] after) and the [datasets] property of its data block. *)
Lemma datasets_hook_overwrites_base :
  get_prop ex_registered (VRef 0) "type" = Some (VStr "pie") ∧
  get_prop ex_registered (VRef 1) "datasets" = Some (VRef 2) ∧
  ('(h', r) ← run_hook 0 (datasets_fn (VRef 12) (VStr "bar"))
                ex_registered (VRef 0);
   Some (r, get_prop h' (VRef 0) "type", get_prop h' (VRef 1) "datasets"))
  = Some (VRef 0, Some (VStr "bar"), Some (VRef 18)).
Proof. split_and!; vm_compute; reflexivity. Qed.

(** C4, counterexample.  Without a dataset sequence the hook of
    [datasets] still changes the configuration: its [type] goes from
    ['pie'] to ['bar']. *)
Lemma datasets_hook_absent_not_noop :
  datasets_absent ex_no_data (VRef 0) ∧
  get_prop ex_no_data (VRef 0) "type" = Some (VStr "pie") ∧
  (st ← datasets (VStr "line") VUndefined (ex_no_data, []);
   '(h', r) ← apply_hooks 0 st.2 st.1 (VRef 0);
   Some (r, get_prop h' r "type"))
  = Some (VRef 0, Some (VStr "bar")).
Proof. split_and!; vm_compute; reflexivity. Qed.

(** C9, counterexample.  [legend(o)] captures [o] itself: after
    [o.display = false] the same chain merges [display: false] where it
    merged [display: true] before.  Likewise for a style fragment in the
    list given to [datasets]. *)
Lemma mutation_after_registration_is_seen :
  legend (VRef 0) (ex_legend, []) = (ex_legend, [legend_fn (VRef 0)]) ∧
  legend_display [legend_fn (VRef 0)] ex_legend = Some (VBool true) ∧
  (h ← set_prop ex_legend (VRef 0) "display" (VBool false);
   legend_display [legend_fn (VRef 0)] h) = Some (VBool false) ∧
  (st ← datasets (VRef 1) VUndefined (ex_fragment, []);
   dataset0_type st.2 st.1) = Some (VStr "line") ∧
  (st ← datasets (VRef 1) VUndefined (ex_fragment, []);
   h ← set_prop st.1 (VRef 0) "type" (VStr "bar");
   dataset0_type st.2 h) = Some (VStr "bar").
Proof. split_and!; vm_compute; reflexivity. Qed.

(** ** The theorems at concrete inputs *)

(** C1 on [ex_store]: dataset 4 gets [palette[4 % 3]]. *)
Lemma colors_cycles_palette_witness :
  arr_at ex_store (VRef 9) = Some [VStr "red"; VStr "green"; VStr "blue"] ∧
  datasets_of ex_store (VRef 0) = Some (VRef 2) ∧
  arr_at ex_store (VRef 2) = Some [VRef 3; VRef 4; VRef 5; VRef 6; VRef 7] ∧
  ∃ h' ps,
    run_hook 0 (colors_fn (VRef 9)) ex_store (VRef 0) = Some (h', VRef 0) ∧
    dataset_at h' (VRef 0) 4 = Some ps ∧
    ps !! "borderColor" = Some (VStr "green") ∧
    ps !! "backgroundColor" = Some (VStr "green").
Proof.
  split_and!; [reflexivity..|].
  destruct (colors_cycles_palette (VRef 9) VUndefined (ex_store, []) ex_store
              (VRef 0) (VRef 2) [VRef 3; VRef 4; VRef 5; VRef 6; VRef 7]
              [VStr "red"; VStr "green"; VStr "blue"] 0)
    as (_ & _ & h' & Hrun & Hall); [reflexivity..|spreadable|].
  destruct (Hall 4) as (ps & Hds & Hbc & Hbg & _); [simpl; lia|].
  exists h', ps. split_and!; [exact Hrun|exact Hds|exact Hbc|exact Hbg].
Defined.

(** C10 on [ex_store]: dataset 1 keeps its [label] and [type]. *)
Lemma colors_keeps_other_fields_witness :
  arr_at ex_store (VRef 9) = Some [VStr "red"; VStr "green"; VStr "blue"] ∧
  datasets_of ex_store (VRef 0) = Some (VRef 2) ∧
  arr_at ex_store (VRef 2) = Some [VRef 3; VRef 4; VRef 5; VRef 6; VRef 7] ∧
  ∃ h' ps',
    run_hook 0 (colors_fn (VRef 9)) ex_store (VRef 0) = Some (h', VRef 0) ∧
    datasets_length h' (VRef 0) = Some 5 ∧
    dataset_at h' (VRef 0) 1 = Some ps' ∧
    ps' !! "label" = Some (VStr "b") ∧ ps' !! "type" = Some (VStr "radar").
Proof.
  split_and!; [reflexivity..|].
  destruct (colors_keeps_other_fields (VRef 9) ex_store
              (VRef 0) (VRef 2) [VRef 3; VRef 4; VRef 5; VRef 6; VRef 7]
              [VStr "red"; VStr "green"; VStr "blue"] 0)
    as (h' & Hrun & Hlen & Hall); [reflexivity..|spreadable|].
  destruct (Hall 1 (VRef 4) eq_refl) as (ps & ps' & Hps & Hds & _ & Hkeep).
  injection Hps as <-.
  exists h', ps'. split_and!; [exact Hrun|exact Hlen|exact Hds| |].
  - by rewrite Hkeep.
  - by rewrite Hkeep.
Defined.

(** C5 on [ex_registered]: dataset 1 gets the fragment [{type: 'bar'}]
    and keeps its [label]. *)
Lemma datasets_cycles_types_witness :
  datasets_of ex_registered (VRef 0) = Some (VRef 2) ∧
  arr_at ex_registered (VRef 2) = Some [VRef 3; VRef 4; VRef 5; VRef 6; VRef 7] ∧
  arr_at ex_registered (VRef 12) = Some [VRef 10; VRef 11] ∧
  ∃ h' new,
    run_hook 0 (datasets_fn (VRef 12) (VStr "bar")) ex_registered (VRef 0)
      = Some (h', VRef 0) ∧
    get_prop h' (VRef 0) "type" = Some (VStr "bar") ∧
    datasets_length h' (VRef 0) = Some 5 ∧
    dataset_at h' (VRef 0) 1 = Some new ∧
    new !! "type" = Some (VStr "bar") ∧ new !! "label" = Some (VStr "b").
Proof.
  split_and!; [reflexivity..|].
  destruct (datasets_cycles_types (VRef 8) VUndefined (VRef 12) (ex_store, [])
              ex_registered (VRef 0) (VRef 2)
              [VRef 3; VRef 4; VRef 5; VRef 6; VRef 7] [VRef 10; VRef 11] 0)
    as (_ & h' & Hrun & Htype & Hlen & Hall); [reflexivity..|spreadable|spreadable|].
  destruct (Hall 1 (VRef 4) eq_refl)
    as (ps & fs & new & Hps & Hfs & _ & Hds & _ & Hkey).
  injection Hps as <-. injection Hfs as <-.
  exists h', new. split_and!; [exact Hrun|exact Htype|exact Hlen|exact Hds| |].
  - by rewrite Hkey.
  - by rewrite Hkey.
Defined.

(** C4 on [ex_no_data]. *)
Lemma absent_datasets_only_type_written_witness :
  obj_at ex_no_data (VRef 0) = Some {["type" := VStr "pie"]} ∧
  datasets_absent ex_no_data (VRef 0) ∧
  run_hook 0 (colors_fn (VRef 9)) ex_no_data (VRef 0)
    = Some (ex_no_data, VRef 0) ∧
  ∃ h',
    run_hook 0 (datasets_fn (VRef 12) (VStr "bar")) ex_no_data (VRef 0)
      = Some (h', VRef 0) ∧
    obj_at h' (VRef 0) = Some (<["type" := VStr "bar"]> {["type" := VStr "pie"]}).
Proof.
  split_and!; [reflexivity..| |].
  - apply (absent_datasets_only_type_written (VRef 9) (VRef 12) (VStr "bar")
             ex_no_data (VRef 0) {["type" := VStr "pie"]} 0); reflexivity.
  - destruct (absent_datasets_only_type_written (VRef 9) (VRef 12) (VStr "bar")
                ex_no_data (VRef 0) {["type" := VStr "pie"]} 0)
      as (_ & h' & Hrun & Hobj & _); [reflexivity..|].
    exists h'. split; [exact Hrun|exact Hobj].
Defined.

(** C6 on [ex_title]: the object's own [display: false] is kept. *)
Lemma title_normalizes_witness :
  obj_at ex_title (VRef 0)
    = Some {["text" := VStr "Revenue"; "display" := VBool false]} ∧
  ∃ new,
    title (VRef 0) (ex_title, [])
      = Some (ex_title ++ [Obj new], [title_fn (VRef 1)]) ∧
    new !! "display" = Some (VBool false) ∧
    new !! "text" = Some (VStr "Revenue").
Proof.
  split; [reflexivity|].
  destruct (title_normalizes (VRef 0)
              {["text" := VStr "Revenue"; "display" := VBool false]}
              "Revenue" (ex_title, []))
    as (_ & new & Hreg & Hdisplay & Hkeep); [reflexivity|].
  exists new. split_and!; [exact Hreg|exact Hdisplay|].
  by rewrite Hkeep.
Defined.

(** C2 on [ex_merge]: the base's [a] is kept and the fragment's array
    replaces the base's. *)
Lemma mergeOptions_spec_witness :
  obj_at ex_merge (VRef 0)
    = Some {["a" := VNum 1; "o" := VRef 2; "arr" := VRef 5]} ∧
  obj_at ex_merge (VRef 1) = Some {["o" := VRef 3; "arr" := VRef 4]} ∧
  depth_le 2 ex_merge (VRef 1) = true ∧
  ∃ h' r rps,
    mergeOptions 2 ex_merge (VRef 0) (VRef 1) = Some (h', r) ∧
    obj_at h' r = Some rps ∧
    rps !! "a" = Some (VNum 1) ∧
    rps !! "arr" = Some (VRef 4).
Proof.
  split_and!; [reflexivity..|].
  destruct (mergeOptions_spec 2 ex_merge (VRef 0) (VRef 1)
              {["a" := VNum 1; "o" := VRef 2; "arr" := VRef 5]}
              {["o" := VRef 3; "arr" := VRef 4]})
    as (h' & r & rps & Hm & _ & _ & Hr & _ & Hbase & _ & _ & Harr & _);
    [reflexivity..|].
  exists h', r, rps. split_and!; [exact Hm|exact Hr| |].
  - by rewrite Hbase.
  - by apply (Harr "arr" (VRef 4) [VNum 7]).
Defined.

(** C8 on [ex_no_data] with fuel 3. *)
Lemma displayAxes_twice_replaces_witness :
  obj_at ex_no_data (VRef 0) = Some {["type" := VStr "pie"]} ∧
  3 ≤ 3 ∧
  ∃ h' r,
    apply_hooks 3 [displayAxes_fn (VBool true) (VBool false);
                   displayAxes_fn (VBool false) (VBool false)]
      ex_no_data (VRef 0) = Some (h', r) ∧
    axes_display h' r (VBool false).
Proof.
  split_and!; [reflexivity|lia|].
  apply (displayAxes_twice_replaces ([], []) ex_no_data (VRef 0)
           {["type" := VStr "pie"]} 3); [reflexivity|lia].
Defined.

(** C3 on [ex_registered], for the hook of [datasets]: location 0 is
    returned, its [type] is assigned, and the data block's [datasets] is
    reassigned. *)
Lemma hooks_write_only_type_and_datasets_witness :
  ∃ h' cps,
    run_hook 0 (datasets_fn (VRef 12) (VStr "bar")) ex_registered (VRef 0)
      = Some (h', VRef 0) ∧
    ex_registered !! 0 = Some (Obj cps) ∧
    datasets_reassigned (retyped ex_registered 0 cps (VStr "bar")) h' (VRef 0).
Proof.
  destruct (run_hook 0 (datasets_fn (VRef 12) (VStr "bar")) ex_registered (VRef 0))
    as [[h' r]|] eqn:Hrun; [|by vm_compute in Hrun].
  destruct (proj2 (proj2 (proj2 (proj2 (proj2
              hooks_write_only_type_and_datasets)))) _ _ _ _ _ _ _ Hrun)
    as (-> & lc & cps & v & Hc & Hlc & Hv & Hif).
  injection Hc as <-. injection Hv as <-.
  by exists h', cps.
Defined.

(** C9 on [ex_legend]: after [o.display = false] on the captured object
    at location 0, the [legend] hook merges [display: false]. *)
Lemma registration_captures_arguments_witness :
  set_prop ex_legend (VRef 0) "display" (VBool false)
    = Some [ Obj {["display" := VBool false]}; Obj {["type" := VStr "bar"]} ] ∧
  ∃ h' r options merged,
    run_hook 3 (legend_fn (VRef 0))
      [ Obj {["display" := VBool false]}; Obj {["type" := VStr "bar"]} ]
      (VRef 1) = Some (h', r) ∧
    get_prop h' r "options" = Some options ∧
    get_prop h' options "legend" = Some merged ∧
    get_prop h' merged "display" = Some (VBool false).
Proof.
  split; [reflexivity|].
  apply (proj2 (proj2 registration_captures_arguments) (VRef 0) 3 1 ex_legend
           [ Obj {["display" := VBool false]}; Obj {["type" := VStr "bar"]} ]
           (VRef 1) "display" (VBool false)).
  - reflexivity.
  - exact I.
  - by eexists.
  - reflexivity.
  - lia.
Defined.

(** * Further properties of the hooks *)

(** ** What a hook leaves in the store *)

Lemma rebuilt_arr_at (h : heap) ld dps pss v es :
  h !! ld = Some (Obj dps) → arr_at h v = Some es →
  arr_at (rebuilt h ld dps pss) v = Some es.
Proof.
  intros Hld (l & -> & Hl)%arr_at_Some. simpl.
  rewrite (rebuilt_frame _ _ _ _ _ _ Hl); [done|]. intros ->. congruence.
Qed.

Lemma rebuilt_own_props (h : heap) ld dps pss v ps :
  own_props h v = Some ps → v ≠ VRef ld →
  own_props (rebuilt h ld dps pss) v = Some ps.
Proof.
  destruct v as [| | | | |l]; try done. simpl. intros Hl Hne.
  destruct (h !! l) as [c|] eqn:E; [|done].
  rewrite (rebuilt_frame _ _ _ _ _ _ E); [done|]. congruence.
Qed.

Lemma dataset_at_beyond (h : heap) chart dsv ds i :
  datasets_of h chart = Some dsv → arr_at h dsv = Some ds →
  length ds ≤ i → dataset_at h chart i = None.
Proof.
  intros Hd Ha Hi. unfold dataset_at. rewrite Hd. simpl. rewrite Ha. simpl.
  by rewrite lookup_ge_None_2.
Qed.

Lemma datasets_of_mono (h h' : heap) chart dsv ds :
  h `prefix_of` h' →
  datasets_of h chart = Some dsv → arr_at h dsv = Some ds →
  datasets_of h' chart = Some dsv.
Proof.
  intros Hp Hd Ha.
  destruct (datasets_of_arr _ _ _ _ Hd Ha) as (ld & dps & Hdata & Hld & Hds).
  unfold datasets_of. rewrite (get_prop_mono _ _ _ _ _ Hp Hdata). simpl.
  by rewrite (prefix_lookup_Some _ _ _ _ Hld Hp), Hds.
Qed.

(** What is known of the store after [map_datasets] with an allocating
    callback. *)
Lemma map_datasets_summary lit (h : heap) chart dsv ds :
  lit_mono lit →
  datasets_of h chart = Some dsv → arr_at h dsv = Some ds →
  (∀ j e, ds !! j = Some e → is_Some (lit h e j)) →
  ∃ h' dsv' ds',
    map_datasets (alloc_cb lit) h chart = Some (h', chart) ∧
    datasets_of h' chart = Some dsv' ∧ arr_at h' dsv' = Some ds' ∧
    arr_at h dsv' = None ∧
    length ds' = length ds ∧
    (∀ j d, ds !! j = Some d →
       ∃ d' ps, ds' !! j = Some d' ∧ lit h d j = Some ps ∧
         d' ≠ chart ∧ get_prop h' chart "data" ≠ Some d' ∧
         own_props h' d' = Some ps ∧ dataset_at h' chart j = Some ps) ∧
    (∀ v es, arr_at h v = Some es → arr_at h' v = Some es) ∧
    (∀ v ps, own_props h v = Some ps → get_prop h chart "data" ≠ Some v →
       own_props h' v = Some ps) ∧
    (∀ k, k ≠ "datasets" → get_prop h' chart k = get_prop h chart k).
Proof.
  intros Hmono Hd Ha Hdef.
  destruct (map_datasets_run lit h chart dsv ds Hmono Hd Ha Hdef)
    as (ld & dps & pss & Hdata & Hld & Hlen & Hpss & Hrun).
  destruct (get_prop_ref_Some _ _ _ _ Hdata) as (lc & cps & -> & Hlc).
  pose proof (lookup_lt_Some _ _ _ Hld) as Hldlt.
  pose proof (lookup_lt_Some _ _ _ Hlc) as Hlclt.
  assert (Hdata' : get_prop (rebuilt h ld dps pss) (VRef lc) "data"
                   = Some (VRef ld)).
  { rewrite rebuilt_get_prop; rewrite ?Hdata; eauto; done. }
  exists (rebuilt h ld dps pss), (VRef (length h + length pss)),
    (VRef <$> seq (length h) (length pss)).
  split_and!; try done.
  - by apply rebuilt_datasets_of.
  - by apply rebuilt_array.
  - simpl. rewrite lookup_ge_None_2; [done|]. lia.
  - by rewrite length_fmap, length_seq.
  - intros j d Hj. destruct (Hpss j d Hj) as (ps & Hpsj & Hlit).
    pose proof (lookup_lt_Some _ _ _ Hj) as Hjlt.
    exists (VRef (length h + j)), ps. split_and!; try done.
    + rewrite list_lookup_fmap, lookup_seq_lt by lia. done.
    + intros [= Heq]. lia.
    + rewrite Hdata'. intros [= Heq]. lia.
    + rewrite <- Hpsj. by apply (rebuilt_new h ld dps pss j).
    + by rewrite (rebuilt_dataset_at _ _ _ _ _ _ Hdata Hld).
  - intros v es. by apply rebuilt_arr_at.
  - intros v ps Hv Hne. apply rebuilt_own_props; [done|]. congruence.
  - intros k Hk. apply rebuilt_get_prop; [done..|].
    simpl. rewrite Hlc. eauto.
Qed.

Lemma colors_hook_summary colors (h : heap) chart dsv ds es fuel :
  arr_at h colors = Some es →
  datasets_of h chart = Some dsv → arr_at h dsv = Some ds →
  Forall (λ d, is_Some (own_props h d)) ds →
  ∃ h' dsv' ds',
    run_hook fuel (colors_fn colors) h chart = Some (h', chart) ∧
    datasets_of h' chart = Some dsv' ∧ arr_at h' dsv' = Some ds' ∧
    length ds' = length ds ∧
    (∀ j d, ds !! j = Some d →
       ∃ d' ps, ds' !! j = Some d' ∧ own_props h d = Some ps ∧
         d' ≠ chart ∧ get_prop h' chart "data" ≠ Some d' ∧
         own_props h' d'
           = Some (colored (elem_at es (js_rem j (length es))) ps) ∧
         dataset_at h' chart j
           = Some (colored (elem_at es (js_rem j (length es))) ps)) ∧
    (∀ v es', arr_at h v = Some es' → arr_at h' v = Some es') ∧
    (∀ v ps, own_props h v = Some ps → get_prop h chart "data" ≠ Some v →
       own_props h' v = Some ps) ∧
    (∀ k, k ≠ "datasets" → get_prop h' chart k = get_prop h chart k).
Proof.
  intros Hpal Hd Ha Hobj.
  destruct (map_datasets_summary (colors_lit colors) h chart dsv ds)
    as (h' & dsv' & ds' & Hrun & Hd' & Ha' & _ & Hlen & Hnew & Harr & Hown & Hkeep);
    try done.
  { intros ?????. by apply colors_lit_mono. }
  { intros j d Hj.
    destruct (proj1 (Forall_lookup _ _) Hobj j d Hj) as [ps Hps].
    rewrite (colors_lit_Some _ _ _ _ _ _ Hpal Hps). eauto. }
  exists h', dsv', ds'. split_and!; try done.
  - intros j d Hj.
    destruct (proj1 (Forall_lookup _ _) Hobj j d Hj) as [ps Hps].
    destruct (Hnew j d Hj) as (d' & ps' & ? & Hlit & ? & ? & ? & ?).
    rewrite (colors_lit_Some _ _ _ _ _ _ Hpal Hps) in Hlit.
    injection Hlit as <-. by exists d', ps.
Qed.

Lemma datasets_hook_summary t general (h : heap) chart dsv ds ts fuel :
  datasets_of h chart = Some dsv → arr_at h dsv = Some ds →
  arr_at h t = Some ts →
  Forall (λ d, d ≠ chart ∧ is_Some (own_props h d)) ds →
  Forall (λ f, f ≠ chart ∧ is_Some (own_props h f)) ts →
  ∃ h' dsv' ds',
    run_hook fuel (datasets_fn t general) h chart = Some (h', chart) ∧
    get_prop h' chart "type" = Some general ∧
    datasets_of h' chart = Some dsv' ∧ arr_at h' dsv' = Some ds' ∧
    length ds' = length ds ∧
    (∀ j d, ds !! j = Some d →
       ∃ d' ps fs, ds' !! j = Some d' ∧ own_props h d = Some ps ∧
         own_props h (elem_at ts (js_rem j (length ts))) = Some fs ∧
         d' ≠ chart ∧ get_prop h' chart "data" ≠ Some d' ∧
         own_props h' d' = Some (fs ∪ ps) ∧
         dataset_at h' chart j = Some (fs ∪ ps)) ∧
    (∀ v es, arr_at h v = Some es → arr_at h' v = Some es) ∧
    (∀ v ps, own_props h v = Some ps → v ≠ chart →
       get_prop h chart "data" ≠ Some v → own_props h' v = Some ps) ∧
    get_prop h' chart "data" = get_prop h chart "data".
Proof.
  intros Hd Ha Ht Hobj Hfrag.
  destruct (datasets_of_arr _ _ _ _ Hd Ha) as (ld0 & dps0 & Hdata0 & _ & _).
  destruct (get_prop_ref_Some _ _ _ _ Hdata0) as (lc & cps & -> & Hlc).
  set (h0 := retyped h lc cps general).
  assert (Hfs : ∀ j, ∃ fs,
    elem_at ts (js_rem j (length ts)) ≠ VRef lc ∧
    own_props h (elem_at ts (js_rem j (length ts))) = Some fs).
  { intros j. destruct (elem_at_cycle_cases ts j) as [[_ ->]|[_ Hin]].
    - by exists ∅.
    - destruct (proj1 (Forall_lookup _ _) Hfrag _ _ Hin) as [Hne [fs Hfs]]. eauto. }
  assert (Hlit : ∀ j d, ds !! j = Some d →
    ∃ ps fs, own_props h d = Some ps ∧
      own_props h (elem_at ts (js_rem j (length ts))) = Some fs ∧
      datasets_lit t h0 d j = Some (fs ∪ ps)).
  { intros j d Hj.
    destruct (proj1 (Forall_lookup _ _) Hobj j d Hj) as [Hne [ps Hps]].
    destruct (Hfs j) as (fs & Hne' & Hfsj).
    exists ps, fs. split_and!; [done..|].
    apply (datasets_lit_Some _ _ ts).
    - unfold h0. by rewrite (retyped_arr_at _ _ _ _ Hlc).
    - unfold h0. by rewrite retyped_own_props.
    - unfold h0. by rewrite retyped_own_props. }
  destruct (map_datasets_summary (datasets_lit t) h0 (VRef lc) dsv ds)
    as (h' & dsv' & ds' & Hrun & Hd' & Ha' & _ & Hlen & Hnew & Harr & Hown & Hkeep).
  { intros ?????. by apply datasets_lit_mono. }
  { unfold h0. by rewrite (retyped_datasets_of _ _ _ _ Hlc). }
  { unfold h0. by rewrite (retyped_arr_at _ _ _ _ Hlc). }
  { intros j d Hj. destruct (Hlit j d Hj) as (ps & fs & _ & _ & ->). eauto. }
  assert (Hdata0' : get_prop h0 (VRef lc) "data" = get_prop h (VRef lc) "data").
  { unfold h0. by apply (retyped_get_prop _ _ _ _ Hlc). }
  exists h', dsv', ds'. split_and!; try done.
  - cbn [run_hook]. rewrite (set_prop_type _ _ _ _ Hlc). exact Hrun.
  - rewrite Hkeep by done. unfold h0. by apply retyped_type.
  - intros j d Hj. destruct (Hlit j d Hj) as (ps & fs & Hps & Hfsj & Hl).
    destruct (Hnew j d Hj) as (d' & ps' & ? & Hl' & ? & ? & ? & ?).
    rewrite Hl in Hl'. injection Hl' as <-. by exists d', ps, fs.
  - intros v es Hv. apply Harr. unfold h0.
    by rewrite (retyped_arr_at _ _ _ _ Hlc).
  - intros v ps Hv Hne Hnd. apply Hown.
    + unfold h0. by rewrite retyped_own_props.
    + by rewrite Hdata0'.
  - by rewrite Hkeep.
Qed.

Lemma datasets_length_eq (h : heap) chart dsv ds :
  datasets_of h chart = Some dsv → arr_at h dsv = Some ds →
  datasets_length h chart = Some (length ds).
Proof.
  unfold datasets_length. intros ->. cbn [mbind option_bind]. by intros ->.
Qed.

Lemma colored_colored c1 c2 ps : colored c2 (colored c1 ps) = colored c2 ps.
Proof.
  unfold colored. apply map_eq. intros k.
  destruct (decide (k = "backgroundColor")) as [->|Hbg].
  { by rewrite !lookup_insert_eq. }
  rewrite (lookup_insert_ne _ "backgroundColor") by done.
  rewrite (lookup_insert_ne (<["borderColor":=c2]> ps) "backgroundColor") by done.
  destruct (decide (k = "borderColor")) as [->|Hbc].
  { by rewrite !lookup_insert_eq. }
  by rewrite !lookup_insert_ne.
Qed.

(** ** Two hooks in a row *)

(** X1.  Two [colors] hooks in a row leave every dataset as the second
    one alone would: the first palette leaves no trace.  With the same
    palette twice this says the hook is idempotent on the datasets. *)
Theorem colors_last_palette_wins (p1 p2 : value) (h : heap)
    (chart dsv : value) (ds es1 es2 : list value) (fuel : nat) :
  arr_at h p1 = Some es1 →
  arr_at h p2 = Some es2 →
  datasets_of h chart = Some dsv →
  arr_at h dsv = Some ds →
  Forall (λ d, is_Some (own_props h d)) ds →
  ∃ h1 h2 h2',
    run_hook fuel (colors_fn p1) h chart = Some (h1, chart) ∧
    run_hook fuel (colors_fn p2) h1 chart = Some (h2, chart) ∧
    run_hook fuel (colors_fn p2) h chart = Some (h2', chart) ∧
    datasets_length h2 chart = Some (length ds) ∧
    ∀ i, dataset_at h2 chart i = dataset_at h2' chart i.
Proof.
  intros Hp1 Hp2 Hd Ha Hobj.
  destruct (colors_hook_summary p1 h chart dsv ds es1 fuel)
    as (h1 & dsv1 & ds1 & Hrun1 & Hd1 & Ha1 & Hlen1 & Hnew1 & Harr1 & _);
    try done.
  assert (Hobj1 : Forall (λ d, is_Some (own_props h1 d)) ds1).
  { apply Forall_lookup. intros j x Hx.
    destruct (lookup_lt_is_Some_2 ds j) as [d Hj].
    { rewrite <- Hlen1. by eapply lookup_lt_Some. }
    destruct (Hnew1 j d Hj) as (d' & ps & Hd' & _ & _ & _ & Hown & _).
    rewrite Hx in Hd'. injection Hd' as <-. eauto. }
  destruct (colors_hook_summary p2 h1 chart dsv1 ds1 es2 fuel)
    as (h2 & dsv2 & ds2 & Hrun2 & Hd2 & Ha2 & Hlen2 & Hnew2 & _);
    try done.
  { by apply Harr1. }
  destruct (colors_hook_summary p2 h chart dsv ds es2 fuel)
    as (h2' & dsv2' & ds2' & Hrun2' & Hd2' & Ha2' & Hlen2' & Hnew2' & _);
    try done.
  exists h1, h2, h2'. split_and!; try done.
  { rewrite (datasets_length_eq _ _ _ _ Hd2 Ha2). f_equal. lia. }
  intros i. destruct (decide (i < length ds)) as [Hi|Hi].
  - destruct (lookup_lt_is_Some_2 ds i Hi) as [d Hdi].
    destruct (Hnew1 i d Hdi) as (d1 & ps & Hd1i & Hps & _ & _ & Hown1 & _).
    destruct (Hnew2 i d1 Hd1i) as (d2 & ps1 & _ & Hps1 & _ & _ & _ & ->).
    destruct (Hnew2' i d Hdi) as (d2' & ps' & _ & Hps' & _ & _ & _ & ->).
    rewrite Hown1 in Hps1. injection Hps1 as <-.
    rewrite Hps in Hps'. injection Hps' as <-.
    by rewrite colored_colored.
  - rewrite (dataset_at_beyond _ _ _ _ _ Hd2 Ha2) by lia.
    by rewrite (dataset_at_beyond _ _ _ _ _ Hd2' Ha2') by lia.
Qed.

(** X2.  [colors] registered after [datasets]: every dataset gets the
    fragment's properties and then the palette's two colours, so a
    [borderColor] or [backgroundColor] given in a fragment is
    overwritten, while the top-level type set by [datasets] stays. *)
Theorem colors_after_datasets (t general p : value) (h : heap)
    (chart dsv : value) (ds ts es : list value) (fuel : nat) :
  arr_at h p = Some es →
  arr_at h t = Some ts →
  datasets_of h chart = Some dsv →
  arr_at h dsv = Some ds →
  Forall (λ d, d ≠ chart ∧ is_Some (own_props h d)) ds →
  Forall (λ f, f ≠ chart ∧ is_Some (own_props h f)) ts →
  ∃ h1 h2,
    run_hook fuel (datasets_fn t general) h chart = Some (h1, chart) ∧
    run_hook fuel (colors_fn p) h1 chart = Some (h2, chart) ∧
    get_prop h2 chart "type" = Some general ∧
    ∀ i d, ds !! i = Some d →
      ∃ ps fs,
        own_props h d = Some ps ∧
        own_props h (elem_at ts (js_rem i (length ts))) = Some fs ∧
        dataset_at h2 chart i
          = Some (colored (elem_at es (js_rem i (length es))) (fs ∪ ps)).
Proof.
  intros Hp Ht Hd Ha Hobj Hfrag.
  destruct (datasets_hook_summary t general h chart dsv ds ts fuel)
    as (h1 & dsv1 & ds1 & Hrun1 & Htype & Hd1 & Ha1 & Hlen1 & Hnew1 & Harr1 & _);
    try done.
  assert (Hobj1 : Forall (λ d, is_Some (own_props h1 d)) ds1).
  { apply Forall_lookup. intros j x Hx.
    destruct (lookup_lt_is_Some_2 ds j) as [d Hj].
    { rewrite <- Hlen1. by eapply lookup_lt_Some. }
    destruct (Hnew1 j d Hj) as (d' & ps & fs & Hd' & _ & _ & _ & _ & Hown & _).
    rewrite Hx in Hd'. injection Hd' as <-. eauto. }
  destruct (colors_hook_summary p h1 chart dsv1 ds1 es fuel)
    as (h2 & dsv2 & ds2 & Hrun2 & Hd2 & Ha2 & Hlen2 & Hnew2 & _ & _ & Hkeep);
    try done.
  { by apply Harr1. }
  exists h1, h2. split_and!; try done.
  { by rewrite Hkeep. }
  intros i d Hdi.
  destruct (Hnew1 i d Hdi) as (d1 & ps & fs & Hd1i & Hps & Hfs & _ & _ & Hown1 & _).
  destruct (Hnew2 i d1 Hd1i) as (d2 & ps1 & _ & Hps1 & _ & _ & _ & ->).
  rewrite Hown1 in Hps1. injection Hps1 as <-. by exists ps, fs.
Qed.

(** X3.  [datasets] registered after [colors]: every dataset gets the
    palette's colours and then the fragment's properties, so a colour
    given in a fragment wins over the palette.  The fragments are
    objects other than the configuration and its data block. *)
Theorem datasets_after_colors (t general p : value) (h : heap)
    (chart dsv : value) (ds ts es : list value) (fuel : nat) :
  arr_at h p = Some es →
  arr_at h t = Some ts →
  datasets_of h chart = Some dsv →
  arr_at h dsv = Some ds →
  Forall (λ d, is_Some (own_props h d)) ds →
  Forall (λ f, f ≠ chart ∧ get_prop h chart "data" ≠ Some f ∧
               is_Some (own_props h f)) ts →
  ∃ h1 h2,
    run_hook fuel (colors_fn p) h chart = Some (h1, chart) ∧
    run_hook fuel (datasets_fn t general) h1 chart = Some (h2, chart) ∧
    get_prop h2 chart "type" = Some general ∧
    ∀ i d, ds !! i = Some d →
      ∃ ps fs,
        own_props h d = Some ps ∧
        own_props h (elem_at ts (js_rem i (length ts))) = Some fs ∧
        dataset_at h2 chart i
          = Some (fs ∪ colored (elem_at es (js_rem i (length es))) ps).
Proof.
  intros Hp Ht Hd Ha Hobj Hfrag.
  destruct (colors_hook_summary p h chart dsv ds es fuel)
    as (h1 & dsv1 & ds1 & Hrun1 & Hd1 & Ha1 & Hlen1 & Hnew1 & Harr1 & Hown1 & Hkeep1);
    try done.
  destruct (datasets_of_arr _ _ _ _ Hd Ha) as (ld & dps & Hdata & _ & _).
  assert (Hobj1 : Forall (λ d, d ≠ chart ∧ is_Some (own_props h1 d)) ds1).
  { apply Forall_lookup. intros j x Hx.
    destruct (lookup_lt_is_Some_2 ds j) as [d Hj].
    { rewrite <- Hlen1. by eapply lookup_lt_Some. }
    destruct (Hnew1 j d Hj) as (d' & ps & Hd' & _ & ? & _ & Hown & _).
    rewrite Hx in Hd'. injection Hd' as <-. eauto. }
  assert (Hfrag1 : Forall (λ f, f ≠ chart ∧ is_Some (own_props h1 f)) ts).
  { eapply Forall_impl; [exact Hfrag|]. intros f (Hne & Hnd & [fs Hfs]).
    split; [done|]. exists fs. by apply Hown1. }
  destruct (datasets_hook_summary t general h1 chart dsv1 ds1 ts fuel)
    as (h2 & dsv2 & ds2 & Hrun2 & Htype & Hd2 & Ha2 & Hlen2 & Hnew2 & _);
    try done.
  { by apply Harr1. }
  exists h1, h2. split_and!; try done.
  intros i d Hdi.
  destruct (Hnew1 i d Hdi) as (d1 & ps & Hd1i & Hps & _ & _ & Hownd & _).
  destruct (Hnew2 i d1 Hd1i) as (d2 & ps1 & fs1 & _ & Hps1 & Hfs1 & _ & _ & _ & ->).
  rewrite Hownd in Hps1. injection Hps1 as <-.
  assert (Hfs : own_props h (elem_at ts (js_rem i (length ts))) = Some fs1).
  { destruct (elem_at_cycle_cases ts i) as [[_ Hu]|[_ Hin]].
    - rewrite Hu in *. done.
    - destruct (proj1 (Forall_lookup _ _) Hfrag _ _ Hin) as (_ & Hnd & [fs Hfs]).
      rewrite (Hown1 _ _ Hfs Hnd) in Hfs1. by injection Hfs1 as <-. }
  by exists ps, fs1.
Qed.

(** X4.  Two [datasets] hooks in a row accumulate: a dataset keeps what
    the first fragment gave it except where the second fragment defines
    the same property, and the top-level type is the second general
    type. *)
Theorem datasets_twice_accumulates (t1 g1 t2 g2 : value) (h : heap)
    (chart dsv : value) (ds ts1 ts2 : list value) (fuel : nat) :
  arr_at h t1 = Some ts1 →
  arr_at h t2 = Some ts2 →
  datasets_of h chart = Some dsv →
  arr_at h dsv = Some ds →
  Forall (λ d, d ≠ chart ∧ is_Some (own_props h d)) ds →
  Forall (λ f, f ≠ chart ∧ is_Some (own_props h f)) ts1 →
  Forall (λ f, f ≠ chart ∧ get_prop h chart "data" ≠ Some f ∧
               is_Some (own_props h f)) ts2 →
  ∃ h1 h2,
    run_hook fuel (datasets_fn t1 g1) h chart = Some (h1, chart) ∧
    run_hook fuel (datasets_fn t2 g2) h1 chart = Some (h2, chart) ∧
    get_prop h2 chart "type" = Some g2 ∧
    ∀ i d, ds !! i = Some d →
      ∃ ps fs1 fs2,
        own_props h d = Some ps ∧
        own_props h (elem_at ts1 (js_rem i (length ts1))) = Some fs1 ∧
        own_props h (elem_at ts2 (js_rem i (length ts2))) = Some fs2 ∧
        dataset_at h2 chart i = Some (fs2 ∪ (fs1 ∪ ps)).
Proof.
  intros Ht1 Ht2 Hd Ha Hobj Hfrag1 Hfrag2.
  destruct (datasets_hook_summary t1 g1 h chart dsv ds ts1 fuel)
    as (h1 & dsv1 & ds1 & Hrun1 & _ & Hd1 & Ha1 & Hlen1 & Hnew1 & Harr1 & Hown1 & Hdata1);
    try done.
  assert (Hobj1 : Forall (λ d, d ≠ chart ∧ is_Some (own_props h1 d)) ds1).
  { apply Forall_lookup. intros j x Hx.
    destruct (lookup_lt_is_Some_2 ds j) as [d Hj].
    { rewrite <- Hlen1. by eapply lookup_lt_Some. }
    destruct (Hnew1 j d Hj) as (d' & ps & fs & Hd' & _ & _ & ? & _ & Hown & _).
    rewrite Hx in Hd'. injection Hd' as <-. eauto. }
  assert (Hfrag2' : Forall (λ f, f ≠ chart ∧ is_Some (own_props h1 f)) ts2).
  { eapply Forall_impl; [exact Hfrag2|]. intros f (Hne & Hnd & [fs Hfs]).
    split; [done|]. exists fs. by apply Hown1. }
  destruct (datasets_hook_summary t2 g2 h1 chart dsv1 ds1 ts2 fuel)
    as (h2 & dsv2 & ds2 & Hrun2 & Htype & Hd2 & Ha2 & Hlen2 & Hnew2 & _);
    try done.
  { by apply Harr1. }
  exists h1, h2. split_and!; try done.
  intros i d Hdi.
  destruct (Hnew1 i d Hdi)
    as (d1 & ps & fs1 & Hd1i & Hps & Hfs1 & _ & _ & Hownd & _).
  destruct (Hnew2 i d1 Hd1i)
    as (d2 & ps1 & fs2 & _ & Hps1 & Hfs2 & _ & _ & _ & ->).
  rewrite Hownd in Hps1. injection Hps1 as <-.
  assert (Hfs : own_props h (elem_at ts2 (js_rem i (length ts2))) = Some fs2).
  { destruct (elem_at_cycle_cases ts2 i) as [[_ Hu]|[_ Hin]].
    - rewrite Hu in *. done.
    - destruct (proj1 (Forall_lookup _ _) Hfrag2 _ _ Hin)
        as (Hne & Hnd & [fs Hfs]).
      rewrite (Hown1 _ _ Hfs Hne Hnd) in Hfs2. by injection Hfs2 as <-. }
  by exists ps, fs1, fs2.
Qed.

(** ** Edge cases of the per-dataset hooks *)

(** X5.  An empty dataset sequence is not "absent": [[]] is truthy, so
    both hooks assign a new empty array to [data.datasets].  The
    callback is never called, so nothing is read from the captured
    palette or list: the hooks return whatever those are. *)
Theorem empty_sequence_is_replaced (colors t general : value) (h : heap)
    (chart dsv : value) (fuel : nat) :
  datasets_of h chart = Some dsv →
  arr_at h dsv = Some [] →
  (∃ h' dsv',
     run_hook fuel (colors_fn colors) h chart = Some (h', chart) ∧
     datasets_of h' chart = Some dsv' ∧ dsv' ≠ dsv ∧
     arr_at h' dsv' = Some []) ∧
  (∃ h' dsv',
     run_hook fuel (datasets_fn t general) h chart = Some (h', chart) ∧
     get_prop h' chart "type" = Some general ∧
     datasets_of h' chart = Some dsv' ∧ dsv' ≠ dsv ∧
     arr_at h' dsv' = Some []).
Proof.
  intros Hd Ha. split.
  - destruct (map_datasets_summary (colors_lit colors) h chart dsv [])
      as (h' & dsv' & ds' & Hrun & Hd' & Ha' & Hfresh & Hlen & _);
      try done.
    { intros ?????. by apply colors_lit_mono. }
    exists h', dsv'. split_and!; try done.
    + intros ->. congruence.
    + destruct ds'; [done|discriminate].
  - destruct (datasets_of_arr _ _ _ _ Hd Ha) as (ld0 & dps0 & Hdata0 & _ & _).
    destruct (get_prop_ref_Some _ _ _ _ Hdata0) as (lc & cps & -> & Hlc).
    destruct (map_datasets_summary (datasets_lit t)
                (retyped h lc cps general) (VRef lc) dsv [])
      as (h' & dsv' & ds' & Hrun & Hd' & Ha' & Hfresh & Hlen & _ & _ & _ & Hkeep);
      try done.
    { intros ?????. by apply datasets_lit_mono. }
    { by rewrite (retyped_datasets_of _ _ _ _ Hlc). }
    { by rewrite (retyped_arr_at _ _ _ _ Hlc). }
    exists h', dsv'. split_and!; try done.
    + cbn [run_hook]. rewrite (set_prop_type _ _ _ _ Hlc). exact Hrun.
    + rewrite Hkeep by done. by apply retyped_type.
    + intros ->. rewrite (retyped_arr_at _ _ _ _ Hlc) in Hfresh. congruence.
    + destruct ds'; [done|discriminate].
Qed.

(** X6.  A [null] (or [undefined]) palette is accepted when [colors] is
    called, and the hook fails only when it is applied to a
    configuration with at least one dataset: reading [colors.length]
    throws.  Nothing is returned. *)
Theorem colors_null_palette_fails (colors : value) (h : heap)
    (chart dsv d : value) (ds : list value) (fuel : nat) :
  colors = VNull ∨ colors = VUndefined →
  datasets_of h chart = Some dsv →
  arr_at h dsv = Some (d :: ds) →
  run_hook fuel (colors_fn colors) h chart = None.
Proof.
  intros Hnull Hd Ha.
  destruct (datasets_of_arr _ _ _ _ Hd Ha) as (ld & dps & Hdata & _ & _).
  apply arr_at_Some in Ha as Ha'. destruct Ha' as (la & -> & Hla).
  cbn [run_hook]. unfold map_datasets. rewrite Hd. simpl. rewrite Hdata. simpl.
  unfold array_map. simpl. rewrite Hla. simpl.
  unfold alloc_cb, colors_lit, cyclic_elem.
  destruct (own_props h d) as [ps|]; [|done]. simpl.
  by destruct Hnull as [-> | ->].
Qed.

(** X7.  With an empty list, as after [datasets([])], [t[i % 0]] is
    [undefined] and spreading it adds nothing: every dataset is rebuilt
    with exactly its own properties; only the top-level type changes. *)
Theorem datasets_empty_list_keeps_fields (t general : value) (h : heap)
    (chart dsv : value) (ds : list value) (fuel : nat) :
  arr_at h t = Some [] →
  datasets_of h chart = Some dsv →
  arr_at h dsv = Some ds →
  Forall (λ d, d ≠ chart ∧ is_Some (own_props h d)) ds →
  ∃ h',
    run_hook fuel (datasets_fn t general) h chart = Some (h', chart) ∧
    get_prop h' chart "type" = Some general ∧
    datasets_length h' chart = Some (length ds) ∧
    ∀ i d, ds !! i = Some d →
      ∃ ps, own_props h d = Some ps ∧ dataset_at h' chart i = Some ps.
Proof.
  intros Ht Hd Ha Hobj.
  destruct (datasets_hook_summary t general h chart dsv ds [] fuel)
    as (h' & dsv' & ds' & Hrun & Htype & Hd' & Ha' & Hlen & Hnew & _);
    try done.
  exists h'. split_and!; try done.
  { rewrite (datasets_length_eq _ _ _ _ Hd' Ha'). by f_equal. }
  intros i d Hi.
  destruct (Hnew i d Hi) as (d' & ps & fs & _ & Hps & Hfs & _ & _ & _ & Hat).
  simpl in Hfs. injection Hfs as <-.
  exists ps. split; [done|]. by rewrite Hat, (left_id_L ∅ (∪)).
Qed.

(** ** [datasets] from call to application *)

Lemma own_props_obj (h : heap) v ps :
  obj_at h v = Some ps → own_props h v = Some ps.
Proof. intros (l & -> & Hl)%obj_at_Some. simpl. by rewrite Hl. Qed.

Lemma datasets_of_chart_obj (h : heap) chart dsv ds :
  datasets_of h chart = Some dsv → arr_at h dsv = Some ds →
  is_Some (obj_at h chart).
Proof.
  intros Hd Ha.
  destruct (datasets_of_arr _ _ _ _ Hd Ha) as (ld & dps & Hdata & _ & _).
  destruct (get_prop_ref_Some _ _ _ _ Hdata) as (lc & cps & -> & Hlc).
  simpl. rewrite Hlc. eauto.
Qed.

(** X8.  [datasets(x)] with [x] not an array, applied to the
    configuration as it is right after the call: the top-level type is
    the general type (['bar'] by default) and every dataset gets
    [type: x] and keeps its other properties. *)
Theorem datasets_single_type_end_to_end (types general : value) (h : heap)
    (hooks : list hook) (chart dsv : value) (ds : list value) (fuel : nat) :
  arr_at h types = None →
  datasets_of h chart = Some dsv →
  arr_at h dsv = Some ds →
  Forall (λ d, d ≠ chart ∧ is_Some (own_props h d)) ds →
  ∃ h1 hk h',
    datasets types general (h, hooks) = Some (h1, hooks ++ [hk]) ∧
    run_hook fuel hk h1 chart = Some (h', chart) ∧
    get_prop h' chart "type" = Some (dflt general (VStr "bar")) ∧
    datasets_length h' chart = Some (length ds) ∧
    ∀ i d, ds !! i = Some d →
      ∃ ps, own_props h d = Some ps ∧
            dataset_at h' chart i = Some (<["type" := types]> ps).
Proof.
  intros Hty Hd Ha Hobj.
  destruct (datasets_registers types general (h, hooks))
    as (h1 & t & ts & Hreg & Hp & _ & Ht & Hnorm).
  unfold normalized in Hnorm. simpl in Hp, Hnorm. rewrite Hty in Hnorm.
  destruct Hnorm as (f & -> & Hf0 & Hf1).
  destruct (datasets_of_chart_obj _ _ _ _ Hd Ha) as [cps Hchart].
  destruct (datasets_hook_summary t (dflt general (VStr "bar")) h1 chart dsv ds
              [f] fuel)
    as (h' & dsv' & ds' & Hrun & Htype & Hd' & Ha' & Hlen & Hnew & _).
  { by eapply datasets_of_mono. }
  { by eapply arr_at_mono. }
  { done. }
  { eapply Forall_impl; [exact Hobj|]. intros d [Hne [ps Hps]].
    split; [done|]. exists ps. by eapply own_props_mono. }
  { apply Forall_cons. split; [|by apply Forall_nil].
    split; [intros ->; congruence|]. rewrite (own_props_obj _ _ _ Hf1). eauto. }
  exists h1, (datasets_fn t (dflt general (VStr "bar"))), h'.
  split_and!; try done.
  { rewrite (datasets_length_eq _ _ _ _ Hd' Ha'). by f_equal. }
  intros i d Hi.
  destruct (Hnew i d Hi) as (d' & ps & fs & _ & Hps & Hfs & _ & _ & _ & Hat).
  destruct (proj1 (Forall_lookup _ _) Hobj i d Hi) as [_ [ps0 Hps0]].
  rewrite (own_props_mono _ _ _ _ Hp Hps0) in Hps. injection Hps as <-.
  assert (elem_at [f] (js_rem i (length [f])) = f) as Helem.
  { unfold js_rem, elem_at. cbn [length]. by rewrite Nat.mod_1_r. }
  rewrite Helem, (own_props_obj _ _ _ Hf1) in Hfs. injection Hfs as <-.
  exists ps0. split; [done|]. by rewrite Hat, <- insert_union_singleton_l.
Qed.

(** X9.  [datasets(list)], applied to the configuration as it is right
    after the call: dataset [i] is matched with entry [i % length] of
    the list passed in; a string entry becomes the dataset's [type], an
    object entry is spread over the dataset.  Object entries are objects
    other than the configuration. *)
Theorem datasets_list_end_to_end (types general : value) (h : heap)
    (hooks : list hook) (chart dsv : value) (ds tys : list value) (fuel : nat) :
  arr_at h types = Some tys →
  datasets_of h chart = Some dsv →
  arr_at h dsv = Some ds →
  Forall (λ d, d ≠ chart ∧ is_Some (own_props h d)) ds →
  Forall (λ e, match e with
               | VStr _ => True
               | _ => e ≠ chart ∧ is_Some (own_props h e)
               end) tys →
  ∃ h1 hk h',
    datasets types general (h, hooks) = Some (h1, hooks ++ [hk]) ∧
    run_hook fuel hk h1 chart = Some (h', chart) ∧
    get_prop h' chart "type" = Some (dflt general (VStr "bar")) ∧
    datasets_length h' chart = Some (length ds) ∧
    ∀ i d e, ds !! i = Some d → tys !! (i mod length tys) = Some e →
      ∃ ps new,
        own_props h d = Some ps ∧
        dataset_at h' chart i = Some new ∧
        match e with
        | VStr _ => new = <["type" := e]> ps
        | _ => ∃ fs, own_props h e = Some fs ∧ new = fs ∪ ps
        end.
Proof.
  intros Hty Hd Ha Hobj Htys.
  destruct (datasets_registers types general (h, hooks))
    as (h1 & t & ts & Hreg & Hp & _ & Ht & Hnorm).
  unfold normalized in Hnorm. simpl in Hp, Hnorm. rewrite Hty in Hnorm.
  destruct Hnorm as [Hlen_ts Hnorm].
  destruct (datasets_of_chart_obj _ _ _ _ Hd Ha) as [cps Hchart].
  assert (Hentry : ∀ j e f, tys !! j = Some e → ts !! j = Some f →
    f ≠ chart ∧
    match e with
    | VStr _ => own_props h1 f = Some {["type" := e]}
    | _ => ∃ fs, own_props h e = Some fs ∧ own_props h1 f = Some fs
    end).
  { intros j e f He Hf. specialize (Hnorm j e He).
    pose proof (proj1 (Forall_lookup _ _) Htys j e He) as Hok.
    destruct e as [| |b|n|s|l].
    5: { destruct Hnorm as (f' & Hf' & Hf0 & Hf1). rewrite Hf in Hf'.
         injection Hf' as <-. split; [intros ->; congruence|].
         by apply own_props_obj. }
    all: rewrite Hf in Hnorm; injection Hnorm as ->.
    all: destruct Hok as [Hne [fs Hfs]]; split; [done|].
    all: exists fs; split; [done|]; by eapply own_props_mono. }
  destruct (datasets_hook_summary t (dflt general (VStr "bar")) h1 chart dsv ds
              ts fuel)
    as (h' & dsv' & ds' & Hrun & Htype & Hd' & Ha' & Hlen & Hnew & _).
  { by eapply datasets_of_mono. }
  { by eapply arr_at_mono. }
  { done. }
  { eapply Forall_impl; [exact Hobj|]. intros d [Hne [ps Hps]].
    split; [done|]. exists ps. by eapply own_props_mono. }
  { apply Forall_lookup. intros j f Hf.
    destruct (lookup_lt_is_Some_2 tys j) as [e He].
    { rewrite <- Hlen_ts. by eapply lookup_lt_Some. }
    destruct (Hentry j e f He Hf) as [Hne Hown]. split; [done|].
    destruct e; try (destruct Hown as (fs & _ & ->); eauto).
    rewrite Hown. eauto. }
  exists h1, (datasets_fn t (dflt general (VStr "bar"))), h'.
  split_and!; try done.
  { rewrite (datasets_length_eq _ _ _ _ Hd' Ha'). by f_equal. }
  intros i d e Hi He.
  destruct (Hnew i d Hi) as (d' & ps & fs & _ & Hps & Hfs & _ & _ & _ & Hat).
  destruct (proj1 (Forall_lookup _ _) Hobj i d Hi) as [_ [ps0 Hps0]].
  rewrite (own_props_mono _ _ _ _ Hp Hps0) in Hps. injection Hps as <-.
  assert (Hk : 0 < length ts).
  { rewrite Hlen_ts. apply lookup_lt_Some in He.
    destruct (length tys); [|lia]. simpl in He. lia. }
  destruct (elem_at_cycle ts i Hk) as (f & Hf & Hf').
  rewrite Hf' in Hfs. rewrite Hlen_ts in Hf.
  destruct (Hentry _ e f He Hf) as [_ Hown].
  exists ps0, (fs ∪ ps0). split_and!; [done..|].
  destruct e as [| |b|n|s|l];
    try (destruct Hown as (fs0 & Hfs0 & Hown); rewrite Hown in Hfs;
         injection Hfs as <-; by exists fs0).
  rewrite Hown in Hfs. injection Hfs as <-.
  by rewrite <- insert_union_singleton_l.
Qed.

(** ** The chain only grows *)

(** X10.  Every registration method leaves the hooks already in the
    chain where they are and appends exactly one hook, [minimalist]
    exactly two. *)
Theorem register_appends (colorPalette : value) (c : call) (st st' : state) :
  register colorPalette c st = Some st' →
  ∃ new,
    st'.2 = st.2 ++ new ∧
    length new = match c with call_minimalist _ => 2 | _ => 1 end.
Proof.
  intros Hreg. destruct st as [h hooks].
  destruct c as [v|v|v|d s|v|v|types general|v|v]; cbn [register] in Hreg.
  - injection Hreg as <-. by eexists [_].
  - injection Hreg as <-. by eexists [_].
  - injection Hreg as <-. destruct v; by eexists [_].
  - injection Hreg as <-. by eexists [_].
  - injection Hreg as <-. eexists [_; _]. split; [|done].
    unfold minimalist, displayAxes. simpl. by rewrite <- app_assoc.
  - injection Hreg as <-. by eexists [_].
  - destruct (datasets_registers types general (h, hooks))
      as (h1 & t & ts & Heq & _). rewrite Heq in Hreg.
    injection Hreg as <-. by eexists [_].
  - apply title_registers in Hreg as (_ & -> & _). by eexists [_].
  - injection Hreg as <-. by eexists [_].
Qed.

(** ** The further properties at concrete inputs *)

Ltac fragments :=
  repeat (apply Forall_cons; split;
          [split; [done|split; [done|by eexists]]|]);
  apply Forall_nil; exact I.

(** X1 on [ex_store], with the list at 8 as first palette and the
    palette at 9 as second. *)
Lemma colors_last_palette_wins_witness :
  arr_at ex_store (VRef 8) = Some [VStr "line"; VStr "bar"] ∧
  arr_at ex_store (VRef 9) = Some [VStr "red"; VStr "green"; VStr "blue"] ∧
  datasets_of ex_store (VRef 0) = Some (VRef 2) ∧
  arr_at ex_store (VRef 2) = Some [VRef 3; VRef 4; VRef 5; VRef 6; VRef 7] ∧
  ∃ h1 h2 h2',
    run_hook 0 (colors_fn (VRef 8)) ex_store (VRef 0) = Some (h1, VRef 0) ∧
    run_hook 0 (colors_fn (VRef 9)) h1 (VRef 0) = Some (h2, VRef 0) ∧
    run_hook 0 (colors_fn (VRef 9)) ex_store (VRef 0) = Some (h2', VRef 0) ∧
    dataset_at h2 (VRef 0) 4 = dataset_at h2' (VRef 0) 4.
Proof.
  split_and!; [reflexivity..|].
  destruct (colors_last_palette_wins (VRef 8) (VRef 9) ex_store (VRef 0) (VRef 2)
              [VRef 3; VRef 4; VRef 5; VRef 6; VRef 7]
              [VStr "line"; VStr "bar"] [VStr "red"; VStr "green"; VStr "blue"] 0)
    as (h1 & h2 & h2' & Hrun1 & Hrun2 & Hrun2' & _ & Hall);
    [reflexivity..|spreadable|].
  exists h1, h2, h2'. split_and!; [exact Hrun1|exact Hrun2|exact Hrun2'|].
  exact (Hall 4).
Defined.

(** X2 on [ex_registered]: dataset 1 has the fragment's [type] and the
    palette's colour. *)
Lemma colors_after_datasets_witness :
  arr_at ex_registered (VRef 9) = Some [VStr "red"; VStr "green"; VStr "blue"] ∧
  arr_at ex_registered (VRef 12) = Some [VRef 10; VRef 11] ∧
  datasets_of ex_registered (VRef 0) = Some (VRef 2) ∧
  arr_at ex_registered (VRef 2) = Some [VRef 3; VRef 4; VRef 5; VRef 6; VRef 7] ∧
  ∃ h1 h2 new,
    run_hook 0 (datasets_fn (VRef 12) (VStr "bar")) ex_registered (VRef 0)
      = Some (h1, VRef 0) ∧
    run_hook 0 (colors_fn (VRef 9)) h1 (VRef 0) = Some (h2, VRef 0) ∧
    dataset_at h2 (VRef 0) 1 = Some new ∧
    new !! "type" = Some (VStr "bar") ∧
    new !! "borderColor" = Some (VStr "green").
Proof.
  split_and!; [reflexivity..|].
  destruct (colors_after_datasets (VRef 12) (VStr "bar") (VRef 9) ex_registered
              (VRef 0) (VRef 2) [VRef 3; VRef 4; VRef 5; VRef 6; VRef 7]
              [VRef 10; VRef 11] [VStr "red"; VStr "green"; VStr "blue"] 0)
    as (h1 & h2 & Hrun1 & Hrun2 & _ & Hall);
    [reflexivity..|spreadable|spreadable|].
  destruct (Hall 1 (VRef 4) eq_refl) as (ps & fs & Hps & Hfs & Hat).
  injection Hps as <-. injection Hfs as <-.
  eexists h1, h2, _. split_and!; [exact Hrun1|exact Hrun2|exact Hat|..];
    reflexivity.
Defined.

(** X3 on [ex_registered]: dataset 1 has the palette's colour and the
    fragment's [type]. *)
Lemma datasets_after_colors_witness :
  arr_at ex_registered (VRef 9) = Some [VStr "red"; VStr "green"; VStr "blue"] ∧
  arr_at ex_registered (VRef 12) = Some [VRef 10; VRef 11] ∧
  datasets_of ex_registered (VRef 0) = Some (VRef 2) ∧
  arr_at ex_registered (VRef 2) = Some [VRef 3; VRef 4; VRef 5; VRef 6; VRef 7] ∧
  ∃ h1 h2 new,
    run_hook 0 (colors_fn (VRef 9)) ex_registered (VRef 0) = Some (h1, VRef 0) ∧
    run_hook 0 (datasets_fn (VRef 12) (VStr "bar")) h1 (VRef 0)
      = Some (h2, VRef 0) ∧
    dataset_at h2 (VRef 0) 1 = Some new ∧
    new !! "type" = Some (VStr "bar") ∧
    new !! "borderColor" = Some (VStr "green").
Proof.
  split_and!; [reflexivity..|].
  destruct (datasets_after_colors (VRef 12) (VStr "bar") (VRef 9) ex_registered
              (VRef 0) (VRef 2) [VRef 3; VRef 4; VRef 5; VRef 6; VRef 7]
              [VRef 10; VRef 11] [VStr "red"; VStr "green"; VStr "blue"] 0)
    as (h1 & h2 & Hrun1 & Hrun2 & _ & Hall);
    [reflexivity..|spreadable|fragments|].
  destruct (Hall 1 (VRef 4) eq_refl) as (ps & fs & Hps & Hfs & Hat).
  injection Hps as <-. injection Hfs as <-.
  eexists h1, h2, _. split_and!; [exact Hrun1|exact Hrun2|exact Hat|..];
    reflexivity.
Defined.

(** X4 on [ex_registered], with the same list twice. *)
Lemma datasets_twice_accumulates_witness :
  arr_at ex_registered (VRef 12) = Some [VRef 10; VRef 11] ∧
  datasets_of ex_registered (VRef 0) = Some (VRef 2) ∧
  arr_at ex_registered (VRef 2) = Some [VRef 3; VRef 4; VRef 5; VRef 6; VRef 7] ∧
  ∃ h1 h2 new,
    run_hook 0 (datasets_fn (VRef 12) (VStr "bar")) ex_registered (VRef 0)
      = Some (h1, VRef 0) ∧
    run_hook 0 (datasets_fn (VRef 12) (VStr "line")) h1 (VRef 0)
      = Some (h2, VRef 0) ∧
    get_prop h2 (VRef 0) "type" = Some (VStr "line") ∧
    dataset_at h2 (VRef 0) 0 = Some new ∧
    new !! "type" = Some (VStr "line") ∧ new !! "label" = Some (VStr "a").
Proof.
  split_and!; [reflexivity..|].
  destruct (datasets_twice_accumulates (VRef 12) (VStr "bar") (VRef 12)
              (VStr "line") ex_registered (VRef 0) (VRef 2)
              [VRef 3; VRef 4; VRef 5; VRef 6; VRef 7]
              [VRef 10; VRef 11] [VRef 10; VRef 11] 0)
    as (h1 & h2 & Hrun1 & Hrun2 & Htype & Hall);
    [reflexivity..|spreadable|spreadable|fragments|].
  destruct (Hall 0 (VRef 3) eq_refl) as (ps & fs1 & fs2 & Hps & Hfs1 & Hfs2 & Hat).
  injection Hps as <-. injection Hfs1 as <-. injection Hfs2 as <-.
  eexists h1, h2, _.
  split_and!; [exact Hrun1|exact Hrun2|exact Htype|exact Hat|..]; reflexivity.
Defined.

(** X5 on [ex_empty], with [null] captured by both hooks. *)
Lemma empty_sequence_is_replaced_witness :
  datasets_of ex_empty (VRef 0) = Some (VRef 2) ∧
  arr_at ex_empty (VRef 2) = Some [] ∧
  ∃ h' dsv',
    run_hook 0 (colors_fn VNull) ex_empty (VRef 0) = Some (h', VRef 0) ∧
    datasets_of h' (VRef 0) = Some dsv' ∧ dsv' ≠ VRef 2 ∧
    arr_at h' dsv' = Some [].
Proof.
  split_and!; [reflexivity..|].
  apply (empty_sequence_is_replaced VNull VNull VNull ex_empty (VRef 0) (VRef 2) 0);
    reflexivity.
Defined.

(** X6 on [ex_store]. *)
Lemma colors_null_palette_fails_witness :
  datasets_of ex_store (VRef 0) = Some (VRef 2) ∧
  arr_at ex_store (VRef 2) = Some [VRef 3; VRef 4; VRef 5; VRef 6; VRef 7] ∧
  run_hook 0 (colors_fn VNull) ex_store (VRef 0) = None.
Proof.
  split_and!; [reflexivity..|].
  apply (colors_null_palette_fails VNull ex_store (VRef 0) (VRef 2) (VRef 3)
           [VRef 4; VRef 5; VRef 6; VRef 7] 0); [by left|reflexivity..].
Defined.

(** X7 on [ex_empty_list]: dataset 1 keeps [label] and [type]. *)
Lemma datasets_empty_list_keeps_fields_witness :
  arr_at ex_empty_list (VRef 10) = Some [] ∧
  datasets_of ex_empty_list (VRef 0) = Some (VRef 2) ∧
  arr_at ex_empty_list (VRef 2)
    = Some [VRef 3; VRef 4; VRef 5; VRef 6; VRef 7] ∧
  ∃ h',
    run_hook 0 (datasets_fn (VRef 10) (VStr "bar")) ex_empty_list (VRef 0)
      = Some (h', VRef 0) ∧
    get_prop h' (VRef 0) "type" = Some (VStr "bar") ∧
    dataset_at h' (VRef 0) 1
      = Some {["label" := VStr "b"; "type" := VStr "radar"]}.
Proof.
  split_and!; [reflexivity..|].
  destruct (datasets_empty_list_keeps_fields (VRef 10) (VStr "bar") ex_empty_list
              (VRef 0) (VRef 2) [VRef 3; VRef 4; VRef 5; VRef 6; VRef 7] 0)
    as (h' & Hrun & Htype & _ & Hall); [reflexivity..|spreadable|].
  destruct (Hall 1 (VRef 4) eq_refl) as (ps & Hps & Hat).
  injection Hps as <-.
  exists h'. split_and!; [exact Hrun|exact Htype|exact Hat].
Defined.

(** X8 on [ex_store] for [datasets('line')]. *)
Lemma datasets_single_type_end_to_end_witness :
  arr_at ex_store (VStr "line") = None ∧
  datasets_of ex_store (VRef 0) = Some (VRef 2) ∧
  arr_at ex_store (VRef 2) = Some [VRef 3; VRef 4; VRef 5; VRef 6; VRef 7] ∧
  ∃ h1 hk h',
    datasets (VStr "line") VUndefined (ex_store, []) = Some (h1, [hk]) ∧
    run_hook 0 hk h1 (VRef 0) = Some (h', VRef 0) ∧
    get_prop h' (VRef 0) "type" = Some (VStr "bar") ∧
    dataset_at h' (VRef 0) 1
      = Some {["label" := VStr "b"; "type" := VStr "line"]}.
Proof.
  split_and!; [reflexivity..|].
  destruct (datasets_single_type_end_to_end (VStr "line") VUndefined ex_store []
              (VRef 0) (VRef 2) [VRef 3; VRef 4; VRef 5; VRef 6; VRef 7] 0)
    as (h1 & hk & h' & Hreg & Hrun & Htype & _ & Hall);
    [reflexivity..|spreadable|].
  destruct (Hall 1 (VRef 4) eq_refl) as (ps & Hps & Hat).
  injection Hps as <-.
  exists h1, hk, h'. split_and!; [exact Hreg|exact Hrun|exact Htype|exact Hat].
Defined.

(** X9 on [ex_store] for [datasets(['line', 'bar'])]. *)
Lemma datasets_list_end_to_end_witness :
  arr_at ex_store (VRef 8) = Some [VStr "line"; VStr "bar"] ∧
  datasets_of ex_store (VRef 0) = Some (VRef 2) ∧
  arr_at ex_store (VRef 2) = Some [VRef 3; VRef 4; VRef 5; VRef 6; VRef 7] ∧
  ∃ h1 hk h',
    datasets (VRef 8) VUndefined (ex_store, []) = Some (h1, [hk]) ∧
    run_hook 0 hk h1 (VRef 0) = Some (h', VRef 0) ∧
    dataset_at h' (VRef 0) 4
      = Some {["label" := VStr "e"; "type" := VStr "line"]}.
Proof.
  split_and!; [reflexivity..|].
  destruct (datasets_list_end_to_end (VRef 8) VUndefined ex_store []
              (VRef 0) (VRef 2) [VRef 3; VRef 4; VRef 5; VRef 6; VRef 7]
              [VStr "line"; VStr "bar"] 0)
    as (h1 & hk & h' & Hreg & Hrun & _ & _ & Hall);
    [reflexivity..|spreadable|repeat constructor|].
  destruct (Hall 4 (VRef 7) (VStr "line") eq_refl eq_refl)
    as (ps & new & Hps & Hat & ->).
  injection Hps as <-.
  exists h1, hk, h'. split_and!; [exact Hreg|exact Hrun|exact Hat].
Defined.

(** X10 for [minimalist(true)] on an empty builder. *)
Lemma register_appends_witness :
  register VNull (call_minimalist (VBool true)) ([], [])
    = Some ([Obj {["display" := VBool false]}],
            [legend_fn (VRef 0);
             displayAxes_fn (VBool false) (VBool false)]) ∧
  ∃ new,
    [legend_fn (VRef 0); displayAxes_fn (VBool false) (VBool false)]
      = [] ++ new ∧
    length new = 2.
Proof.
  split; [reflexivity|].
  apply (register_appends VNull (call_minimalist (VBool true)) ([], [])
           ([Obj {["display" := VBool false]}],
            [legend_fn (VRef 0); displayAxes_fn (VBool false) (VBool false)])).
  reflexivity.
Defined.
